(** * ProChat store actions (src/ProChat/store/action.ts)

    A shallow embedding of the chat store's actions: the zustand state is a
    record, every action is a function on it, and the points where an
    [async] action suspends ([await]) are explicit, so that what happens
    between two suspension points is one function application. *)

From stdpp Require Import base option list strings pretty gmap.

(** ** Messages (types/message) *)

Inductive Role := user | assistant | system | function.

Global Instance Role_eq_dec : EqDecision Role.
Proof. solve_decision. Defined.

(** The error descriptor carried by a message is opaque to the store; a
    string stands for it. *)
Definition ChatMessageError := string.

Record ChatMessage := mkChatMessage {
  id : string;
  role : Role;
  content : string;
  parentId : option string;
  extra : gmap string string;
  error : option ChatMessageError;
}.

(** ** Mutation commands (store/reducers/message) *)

(** [updateMessage] carries a key and a value; the actions only ever write
    the keys [content] and [error]. *)
Inductive FieldUpdate :=
| SetContent (value : string)
| SetError (value : ChatMessageError).

(** Every [addMessage] the actions dispatch supplies its id, so the command
    carries one.  [updateMessage] is dispatched by [stopGenerateMessage]
    with [chatLoadingId], which may be [undefined]: its id is optional. *)
Inductive MessageDispatch :=
| AddMessage (mid : string) (message : string) (parent : option string) (r : Role)
| DeleteMessage (mid : string)
| UpdateMessage (mid : option string) (upd : FieldUpdate)
| UpdateMessageExtra (mid : string) (key value : string)
| ResetMessages.

Definition has_id (i : string) (m : ChatMessage) : Prop := id m = i.

Global Instance has_id_dec i m : Decision (has_id i m).
Proof. unfold has_id. apply _. Defined.

(** [findIndex((c) => c.id === i)]: the first position holding that id,
    with the element found there. *)
Definition findIndex (i : string) (l : list ChatMessage) : option (nat * ChatMessage) :=
  list_find (has_id i) l.

Definition apply_update (upd : FieldUpdate) (m : ChatMessage) : ChatMessage :=
  match upd with
  | SetContent v =>
      mkChatMessage (id m) (role m) v (parentId m) (extra m) (error m)
  | SetError e =>
      mkChatMessage (id m) (role m) (content m) (parentId m) (extra m) (Some e)
  end.

Definition set_extra (key value : string) (m : ChatMessage) : ChatMessage :=
  mkChatMessage (id m) (role m) (content m) (parentId m)
    (<[key := value]> (extra m)) (error m).

(** Rewrites the message carrying id [i], if any. *)
Definition on_message (i : string) (f : ChatMessage -> ChatMessage)
    (state : list ChatMessage) : list ChatMessage :=
  match findIndex i state with
  | Some (k, m) => <[k := f m]> state
  | None => state
  end.

(** Modelled from the spec: [messagesReducer] (store/reducers/message is not
    among the sources).  Section 4.1: addMessage appends a message built from
    the command's role, content, parentId and id; deleteMessage removes the
    message with that id; updateMessage replaces the named field on the
    message with that id; updateMessageExtra merges one key into that
    message's extra mapping; resetMessages yields the empty sequence; a
    missing id is the identity transform.  "The message with that id" is
    taken as the first one, which is the only one under the store's
    unique-id invariant. *)
Definition messagesReducer (state : list ChatMessage) (payload : MessageDispatch)
    : list ChatMessage :=
  match payload with
  | AddMessage mid message parent r =>
      state ++ [mkChatMessage mid r message parent ∅ None]
  | DeleteMessage mid =>
      match findIndex mid state with
      | Some (k, _) => delete k state
      | None => state
      end
  | UpdateMessage None _ => state
  | UpdateMessage (Some mid) upd => on_message mid (apply_update upd) state
  | UpdateMessageExtra mid key value => on_message mid (set_extra key value) state
  | ResetMessages => []
  end.

(** ** The store *)

Record ModelConfig := mkModelConfig {
  model : string;
  inputTemplate : option string;
  systemRole : option string;
  enableHistoryCount : bool;
  historyCount : nat;
}.

(** What the default model fetcher is handed: the preprocessed messages, the
    model name and the controller whose signal travels with the request. *)
Record FetchCall := mkFetchCall {
  fetch_messages : list ChatMessage;
  fetch_model : string;
  fetch_signal : nat;
}.

(** The zustand state the actions read and write ([chats], [abortController],
    [chatLoadingId], [config], [genMessageId]), together with the parts of
    the JavaScript runtime they touch:
    - [controllers]: the AbortController objects allocated so far, by
      allocation order; each entry counts the [abort()] calls it received,
      so its signal is aborted when the count is positive.  The store's
      [abortController] is an index into this heap;
    - [nanoid_calls]: how many ids the built-in generator has handed out;
    - [dispatched]: the commands [dispatchMessage] received (also what
      [onChatsChange] observes), oldest first;
    - [fetched]: the calls made to the model fetcher, oldest first. *)
Record ChatStore := mkChatStore {
  chats : list ChatMessage;
  abortController : option nat;
  chatLoadingId : option string;
  config : ModelConfig;
  genMessageId : option (list ChatMessage -> string -> string);
  controllers : list nat;
  nanoid_calls : nat;
  dispatched : list MessageDispatch;
  fetched : list FetchCall;
}.

Definition signal_aborted (h : nat) (s : ChatStore) : bool :=
  match controllers s !! h with
  | Some n => bool_decide (0 < n)
  | None => false
  end.

Definition abort_calls (h : nat) (s : ChatStore) : nat :=
  default 0 (controllers s !! h).

(** [abortController.abort()] *)
Definition abort (h : nat) (s : ChatStore) : ChatStore :=
  mkChatStore (chats s) (abortController s) (chatLoadingId s) (config s)
    (genMessageId s) (alter S h (controllers s)) (nanoid_calls s)
    (dispatched s) (fetched s).

(** [dispatchMessage], lines 145-153. *)
Definition dispatchMessage (payload : MessageDispatch) (s : ChatStore) : ChatStore :=
  let nextChats := messagesReducer (chats s) payload in
  mkChatStore nextChats (abortController s) (chatLoadingId s) (config s)
    (genMessageId s) (controllers s) (nanoid_calls s)
    (dispatched s ++ [payload]) (fetched s).

(** [deleteMessage], lines 135-137. *)
Definition deleteMessage (mid : string) (s : ChatStore) : ChatStore :=
  dispatchMessage (DeleteMessage mid) s.

(** [toggleChatLoading(true, id)], lines 345-348: a new controller is
    allocated and stored together with the id; the fresh handle is returned. *)
Definition toggleChatLoading_on (mid : option string) (s : ChatStore) : ChatStore * nat :=
  let abortController' := length (controllers s) in
  (mkChatStore (chats s) (Some abortController') mid (config s)
     (genMessageId s) (controllers s ++ [0]) (nanoid_calls s)
     (dispatched s) (fetched s),
   abortController').

(** [toggleChatLoading(false)], lines 349-351. *)
Definition toggleChatLoading_off (s : ChatStore) : ChatStore :=
  mkChatStore (chats s) None None (config s)
    (genMessageId s) (controllers s) (nanoid_calls s)
    (dispatched s) (fetched s).

(** [toggleChatLoading], lines 344-352. *)
Definition toggleChatLoading (loading : bool) (mid : option string) (s : ChatStore)
    : ChatStore * option nat :=
  if loading then
    let '(s', h) := toggleChatLoading_on mid s in (s', Some h)
  else (toggleChatLoading_off s, None).

(** ** Suspended actions *)

(** The variables a [generateMessage] call closes over while its stream is
    consumed: the target message, the controller returned by
    [toggleChatLoading], the accumulated [output], the [isFunctionCall]
    flag and the messages posted.  [sent] is a ghost field: the values this
    call has passed to [dispatchMessage] under the key [content], oldest
    first. *)
Record GenRun := mkGenRun {
  assistantId : string;
  run_controller : nat;
  output : string;
  isFunctionCall : bool;
  postMessages : list ChatMessage;
  sent : list string;
}.

(** An [async] action runs synchronously up to its first [await] and hands
    back a promise.  A [Task] says where the action is suspended:
    - [Settled]: it returned;
    - [AwaitMessageId]: [realFetchAIResponse] waits at line 245 for the id
      [mid] that [getMessageId] produced;
    - [AwaitSSE]: [generateMessage] waits at line 206 for [fetchSSE];
    - [Rejected]: it threw and its promise is rejected (lodash's
      [template(...)] at line 172 on a template that does not compile). *)
Inductive Task :=
| Settled
| AwaitMessageId (messages : list ChatMessage) (userMessageId mid : string)
| AwaitSSE (run : GenRun)
| Rejected.

(** What may run while [fetchSSE] waits for the next frame: the user stops
    the generation ([stopGenerateMessage]) or some command is dispatched
    (an edit, a deletion, a reset). *)
Inductive UserAction :=
| Stop
| Dispatch (payload : MessageDispatch).

Inductive StreamEvent :=
| Frame (text : string)
| Interleaved (a : UserAction).

(** A response as the consumer sees it: decoded frames in receipt order,
    user actions that happen meanwhile, and the failure that ends it, if
    any. *)
Record Stream := mkStream {
  events : list StreamEvent;
  failure : option ChatMessageError;
}.

(** A string option is truthy when it is present and not empty. *)
Definition truthy (o : option string) : option string :=
  match o with
  | Some v => if decide (v = "") then None else Some v
  | None => None
  end.

Section Actions.

(** Imported from modules that are not among the sources; the actions are
    verified for every value of them. *)
Variable LOADING_FLAT : string.
(** [nanoid_value k] is the id the built-in generator returns on its
    [k]-th call. *)
Variable nanoid_value : nat -> string.
(** lodash's [template(inputTemplate, ...)]: [None] when the call throws
    (the template does not compile), otherwise the compiled template, a
    function of the text that is [None] when applying it to [{ text }]
    throws. *)
Variable template : string -> option (string -> option string).
Variable getSlicedMessagesWithConfig : list ChatMessage -> ModelConfig -> list ChatMessage.
Variable isFunctionMessage : string -> bool.

(** [nanoid()] *)
Definition nanoid (s : ChatStore) : ChatStore * string :=
  (mkChatStore (chats s) (abortController s) (chatLoadingId s) (config s)
     (genMessageId s) (controllers s) (S (nanoid_calls s))
     (dispatched s) (fetched s),
   nanoid_value (nanoid_calls s)).

(** [getMessageId], lines 377-381. *)
Definition getMessageId (messages : list ChatMessage) (parent : string)
    (s : ChatStore) : ChatStore * string :=
  match genMessageId s with
  | Some gen => (s, gen messages parent)
  | None => nanoid s
  end.

(** Modelled from the spec: [chatSelectors.currentChats] (store/selectors
    is not among the sources) resolves "the full in-order context (all
    current messages)". *)
Definition currentChats (s : ChatStore) : list ChatMessage := chats s.

(** *** generateMessage *)

(** [compilerMessages], lines 171-185.  The template is compiled at line
    172, outside the [try]: when that throws, so does [compilerMessages]
    ([None]).  The [try] of lines 175-181 covers the application to one
    message. *)
Definition compilerMessages (tpl : string) (slicedMessages : list ChatMessage)
    : option (list ChatMessage) :=
  match template tpl with
  | None => None
  | Some compiler =>
      Some (map (fun m =>
                   if decide (role m = user) then
                     match compiler (content m) with
                     | Some text =>
                         mkChatMessage (id m) (role m) text (parentId m) (extra m) (error m)
                     | None => m
                     end
                   else m)
                slicedMessages)
  end.

(** The literal [{ content: config.systemRole, role: 'system' }]; it has
    no other field. *)
Definition systemMessage (text : string) : ChatMessage :=
  mkChatMessage "" system text None ∅ None.

(** Lines 168-191: the messages handed to the model, [None] when the
    template does not compile.  [unshift] changes the array in place; the
    arrays [generateMessage] receives are results of [slice] or of the
    selector, and the system message is "not persisted as part of history"
    (spec 4.4), so the conversation is not affected. *)
Definition preprocess (cfg : ModelConfig) (messages : list ChatMessage)
    : option (list ChatMessage) :=
  let slicedMessages := getSlicedMessagesWithConfig messages cfg in
  match
    match truthy (inputTemplate cfg) with
    | None => Some slicedMessages
    | Some tpl => compilerMessages tpl slicedMessages
    end
  with
  | None => None
  | Some postMessages =>
      Some match truthy (systemRole cfg) with
           | Some sr => systemMessage sr :: postMessages
           | None => postMessages
           end
  end.

(** [generateMessage] up to [await fetchSSE(...)], lines 154-206.  The
    session is set first (line 157).  When preprocessing throws, the call
    ends there, rejected: no request is made and lines 233-235 never run.
    Otherwise the consumer calls the fetcher before it first suspends, which
    is logged in [fetched]. *)
Definition generateMessage (messages : list ChatMessage) (target : string)
    (s : ChatStore) : ChatStore * Task :=
  let cfg := config s in
  let '(s1, controller) := toggleChatLoading_on (Some target) s in
  match preprocess cfg messages with
  | None => (s1, Rejected)
  | Some posted =>
      let call := mkFetchCall posted (model cfg) controller in
      (mkChatStore (chats s1) (abortController s1) (chatLoadingId s1)
         (config s1) (genMessageId s1) (controllers s1) (nanoid_calls s1)
         (dispatched s1) (fetched s1 ++ [call]),
       AwaitSSE (mkGenRun target controller "" false posted []))
  end.

(** [onErrorHandle], lines 207-209. *)
Definition onErrorHandle (e : ChatMessageError) (run : GenRun) (s : ChatStore)
    : ChatStore :=
  dispatchMessage (UpdateMessage (Some (assistantId run)) (SetError e)) s.

(** [onMessageHandle], lines 210-230.  [startTransition] runs its callback
    at once. *)
Definition onMessageHandle (text : string) (run : GenRun) (s : ChatStore)
    : ChatStore * GenRun :=
  let output' := output run +:+ text in
  if signal_aborted (run_controller run) s then
    (s, mkGenRun (assistantId run) (run_controller run) output'
          (isFunctionCall run) (postMessages run) (sent run))
  else
    (dispatchMessage (UpdateMessage (Some (assistantId run)) (SetContent output')) s,
     mkGenRun (assistantId run) (run_controller run) output'
       (if isFunctionMessage output' then true else isFunctionCall run)
       (postMessages run) (sent run ++ [output'])).

(** [generateMessage] after [fetchSSE] resolved, lines 233-237: the session
    is cleared and [{ isFunctionCall }] returned. *)
Definition generateMessage_resume (run : GenRun) (s : ChatStore) : ChatStore * bool :=
  (toggleChatLoading_off s, isFunctionCall run).

(** *** stopGenerateMessage, lines 323-343 *)
Definition stopGenerateMessage (s : ChatStore) : ChatStore :=
  let s1 :=
    match last (chats s) with
    | Some lastChat =>
        if decide (content lastChat = LOADING_FLAT) then
          dispatchMessage (UpdateMessage (chatLoadingId s) (SetContent "")) s
        else s
    | None => s
    end in
  match abortController s with
  | None => s1
  | Some h => toggleChatLoading_off (abort h s1)
  end.

(** A user action applied to the store. *)
Definition perform (a : UserAction) (s : ChatStore) : ChatStore :=
  match a with
  | Stop => stopGenerateMessage s
  | Dispatch payload => dispatchMessage payload s
  end.

(** *** The streaming consumer *)

(** The events of a stream in order: a frame goes to [onMessageHandle], a
    user action acts on the store. *)
Fixpoint deliver (evs : list StreamEvent) (run : GenRun) (s : ChatStore)
    : ChatStore * GenRun :=
  match evs with
  | [] => (s, run)
  | Frame text :: rest =>
      let '(s', run') := onMessageHandle text run s in deliver rest run' s'
  | Interleaved a :: rest => deliver rest run (perform a s)
  end.

(** Modelled from the spec: [fetchSSE] (utils/fetch is not among the
    sources).  Section 4.2: the consumer invokes the chunk callback for
    each decoded increment, in receipt order, and the error callback at
    most once, terminal, when the response fails or the operation itself
    rejects; it then returns to its caller.  The model delivers every
    frame the stream holds: a consumer that stops emitting once cancelled
    is the case of a stream with no frame after the cancellation. *)
Definition fetchSSE (stream : Stream) (run : GenRun) (s : ChatStore)
    : ChatStore * GenRun :=
  let '(s1, run1) := deliver (events stream) run s in
  match failure stream with
  | Some e => (onErrorHandle e run1 s1, run1)
  | None => (s1, run1)
  end.

(** *** realFetchAIResponse, lines 240-265 *)

Definition realFetchAIResponse (messages : list ChatMessage) (userMessageId : string)
    (s : ChatStore) : ChatStore * Task :=
  let '(s1, mid) := getMessageId messages userMessageId s in
  (s1, AwaitMessageId messages userMessageId mid).

(** Lines 247-262, once the id is there; a rejection of [generateMessage]
    is that of [realFetchAIResponse] and of the action that awaits it. *)
Definition realFetchAIResponse_resume (messages : list ChatMessage)
    (userMessageId mid : string) (s : ChatStore) : ChatStore * Task :=
  let s1 := dispatchMessage (AddMessage mid LOADING_FLAT (Some userMessageId) assistant) s in
  let s2 := dispatchMessage (UpdateMessageExtra mid "fromModel" (model (config s))) s1 in
  generateMessage messages mid s2.

(** *** resendMessage, lines 267-303 *)

(** The [switch] of lines 276-292. *)
Definition contextMessages (chats : list ChatMessage) (currentIndex : nat)
    (currentMessage : ChatMessage) : list ChatMessage :=
  match role currentMessage with
  | function | user => take (currentIndex + 1) chats
  | assistant =>
      let userId := parentId currentMessage in
      let userIndex :=
        match userId with
        | Some u => findIndex u chats
        | None => None
        end in
      take (match userIndex with
            | None => currentIndex + 1
            | Some (userIndex, _) => userIndex + 1
            end) chats
  | system => []
  end.

Definition resendMessage (messageId : string) (s : ChatStore) : ChatStore * Task :=
  let chats := currentChats s in
  match findIndex messageId chats with
  | None => (s, Settled)
  | Some (currentIndex, currentMessage) =>
      let context := contextMessages chats currentIndex currentMessage in
      if decide (length context <= 0) then (s, Settled)
      else
        match last (filter (fun m => role m = user) context) with
        | None => (s, Settled)
        | Some latestMsg => realFetchAIResponse context (id latestMsg) s
        end
  end.

(** *** sendMessage, lines 305-321 *)
Definition sendMessage (message : string) (s : ChatStore) : ChatStore * Task :=
  if decide (message = "") then (s, Settled)
  else
    let '(s1, userId) := nanoid s in
    let s2 := dispatchMessage (AddMessage userId message None user) s1 in
    let messages := currentChats s2 in
    realFetchAIResponse messages userId s2.

(** *** The message list's action handler ([onActionsClick], lines 47-63 of
    the list component) *)

Inductive ActionKey := del | regenerate.

(** [resendMessage(id)] is called without [await]: it runs to its first
    suspension point and the handler goes on with the deletion; the
    returned task is what remains of the resend. *)
Definition onActionsClick (key : ActionKey) (mid : string)
    (err : option ChatMessageError) (s : ChatStore) : ChatStore * Task :=
  match key with
  | del => (deleteMessage mid s, Settled)
  | regenerate =>
      let '(s1, t) := resendMessage mid s in
      (if err is Some _ then deleteMessage mid s1 else s1, t)
  end.

(** *** Running a suspended action *)

(** One resumption: the continuation after [await getMessageId]. *)
Definition resume (t : Task) (s : ChatStore) : ChatStore * Task :=
  match t with
  | AwaitMessageId messages userMessageId mid =>
      realFetchAIResponse_resume messages userMessageId mid s
  | _ => (s, t)
  end.

(** The rest of a generation: the stream is consumed and
    [generateMessage] returns [{ isFunctionCall }]. *)
Definition consume (stream : Stream) (run : GenRun) (s : ChatStore) : ChatStore * bool :=
  let '(s1, run1) := fetchSSE stream run s in
  generateMessage_resume run1 s1.

(** A task run to its end against a stream; a rejected task stays where the
    throw left it. *)
Definition settle (stream : Stream) (t : Task) (s : ChatStore) : ChatStore :=
  let '(s1, t1) := resume t s in
  match t1 with
  | AwaitSSE run => fst (consume stream run s1)
  | _ => s1
  end.

(** *** Vocabulary of the statements *)


(** The command with which [onMessageHandle] publishes a content value. *)
Definition content_update (target : string) (value : string) : MessageDispatch :=
  UpdateMessage (Some target) (SetContent value).

(** The user actions of a stretch of stream events, frames left out. *)
Definition user_actions (evs : list StreamEvent) : list UserAction :=
  omap (fun ev => match ev with Interleaved a => Some a | Frame _ => None end) evs.

(** User actions applied one after the other. *)
Definition perform_all (acts : list UserAction) (s : ChatStore) : ChatStore :=
  foldl (fun st a => perform a st) s acts.


(** The frames of a stream glued together, first frame first. *)
Definition joined (frames : list string) : string :=
  foldr String.append "" frames.

(** The session fields agree: a stored handle names an allocated controller
    and comes with a loading id; without a handle there is no loading id. *)
Definition session_consistent (s : ChatStore) : Prop :=
  match abortController s with
  | Some h => h < length (controllers s) /\ is_Some (chatLoadingId s)
  | None => chatLoadingId s = None
  end.

(** * Properties *)

(** ** Basic facts about the store primitives *)





Lemma signal_aborted_abort_mono h k s :
  signal_aborted h s = true -> signal_aborted h (abort k s) = true.
Proof.
  unfold signal_aborted, abort. simpl.
  destruct (decide (k = h)) as [->|Hne].
  - rewrite list_lookup_alter_eq. destruct (controllers s !! h) as [n|]; [|done].
    intros _. change (bool_decide (0 < S n) = true).
    apply bool_decide_eq_true_2. lia.
  - by rewrite list_lookup_alter_ne.
Qed.

(** *** Starting a generation *)

(** What [generateMessage] leaves behind when it suspends on the stream:
    preprocessing has produced the messages to post. *)
Lemma generateMessage_eq messages target s posted :
  preprocess (config s) messages = Some posted ->
  generateMessage messages target s =
    (mkChatStore (chats s) (Some (length (controllers s))) (Some target)
       (config s) (genMessageId s) (controllers s ++ [0]) (nanoid_calls s)
       (dispatched s)
       (fetched s ++
          [mkFetchCall posted (model (config s)) (length (controllers s))]),
     AwaitSSE (mkGenRun target (length (controllers s)) "" false posted [])).
Proof. intros Hposted. unfold generateMessage. simpl. by rewrite Hposted. Qed.

(** What it leaves behind when preprocessing throws: the session is set, no
    request has been made. *)
Lemma generateMessage_rejected messages target s :
  preprocess (config s) messages = None ->
  generateMessage messages target s =
    (mkChatStore (chats s) (Some (length (controllers s))) (Some target)
       (config s) (genMessageId s) (controllers s ++ [0]) (nanoid_calls s)
       (dispatched s) (fetched s),
     Rejected).
Proof. intros Hposted. unfold generateMessage. simpl. by rewrite Hposted. Qed.

(** Either way the store differs from the one before in the session fields,
    the new controller and possibly the request log. *)
Lemma generateMessage_store messages target s :
  chats (fst (generateMessage messages target s)) = chats s /\
  abortController (fst (generateMessage messages target s))
    = Some (length (controllers s)) /\
  chatLoadingId (fst (generateMessage messages target s)) = Some target /\
  config (fst (generateMessage messages target s)) = config s /\
  controllers (fst (generateMessage messages target s)) = controllers s ++ [0] /\
  nanoid_calls (fst (generateMessage messages target s)) = nanoid_calls s /\
  dispatched (fst (generateMessage messages target s)) = dispatched s.
Proof.
  destruct (preprocess (config s) messages) as [posted|] eqn:Hposted.
  - by rewrite (generateMessage_eq _ _ _ _ Hposted).
  - by rewrite (generateMessage_rejected _ _ _ Hposted).
Qed.

(** How [generateMessage] ends its first part: suspended on the stream of
    the request it has made, or rejected with no request. *)
Lemma generateMessage_task messages target s :
  snd (generateMessage messages target s) =
    match preprocess (config s) messages with
    | Some posted => AwaitSSE (mkGenRun target (length (controllers s)) "" false posted [])
    | None => Rejected
    end /\
  fetched (fst (generateMessage messages target s)) =
    match preprocess (config s) messages with
    | Some posted =>
        fetched s ++ [mkFetchCall posted (model (config s)) (length (controllers s))]
    | None => fetched s
    end.
Proof.
  destruct (preprocess (config s) messages) as [posted|] eqn:Hposted.
  - by rewrite (generateMessage_eq _ _ _ _ Hposted).
  - by rewrite (generateMessage_rejected _ _ _ Hposted).
Qed.

(** C1, as the code has it: starting a generation while a session is
    active allocates a fresh cancellation handle and overwrites the stored
    handle and [chatLoadingId] with the new session's; the previous
    session's handle receives no [abort()] call and its signal stays as it
    was.  The store holds the newest handle only.  This is so whether the
    generation goes on to its stream, with the new handle, or is rejected
    by a template that does not compile. *)
Theorem generateMessage_supersedes messages target s h :
  session_consistent s ->
  abortController s = Some h ->
  exists s' t controller,
    generateMessage messages target s = (s', t) /\
    controller <> h /\
    abortController s' = Some controller /\
    chatLoadingId s' = Some target /\
    signal_aborted controller s' = false /\
    abort_calls h s' = abort_calls h s /\
    signal_aborted h s' = signal_aborted h s /\
    (forall posted, preprocess (config s) messages = Some posted ->
       exists run, t = AwaitSSE run /\ run_controller run = controller /\
                   postMessages run = posted) /\
    (preprocess (config s) messages = None -> t = Rejected).
Proof.
  intros Hs Hactive. unfold session_consistent in Hs. rewrite Hactive in Hs.
  destruct Hs as [Hh _].
  destruct (generateMessage_store messages target s)
    as (_ & Hctl & Hid & _ & Hheap & _).
  destruct (generateMessage messages target s) as [s' t] eqn:Hgen. simpl in *.
  exists s', t, (length (controllers s)).
  split; [done|]. split; [lia|]. split; [done|]. split; [done|].
  unfold signal_aborted, abort_calls. rewrite Hheap.
  rewrite lookup_app_r by lia. rewrite Nat.sub_diag. simpl.
  split; [done|]. rewrite !lookup_app_l by lia.
  split; [done|]. split; [done|]. split.
  - intros posted Hposted. rewrite (generateMessage_eq _ _ _ _ Hposted) in Hgen.
    injection Hgen as _ <-. by eexists.
  - intros Hposted. rewrite (generateMessage_rejected _ _ _ Hposted) in Hgen.
    by injection Hgen as _ <-.
Qed.

(** *** The session fields

    [abortController] and [chatLoadingId] are set and cleared together, and
    the stored handle always names an allocated controller.  Every action
    keeps it so. *)

Lemma session_consistent_dispatch payload s :
  session_consistent s -> session_consistent (dispatchMessage payload s).
Proof. done. Qed.

Lemma session_consistent_generateMessage messages target s :
  session_consistent (fst (generateMessage messages target s)).
Proof.
  destruct (generateMessage_store messages target s) as (_ & Hctl & Hid & _ & Hheap & _).
  unfold session_consistent. rewrite Hctl, Hid, Hheap.
  rewrite length_app. simpl. split; [lia | by eexists].
Qed.

Lemma session_consistent_stop s :
  session_consistent s -> session_consistent (stopGenerateMessage s).
Proof.
  unfold stopGenerateMessage. intros Hs.
  destruct (abortController s) eqn:Hctl; [done|].
  destruct (last (chats s)) as [m|]; [|done].
  destruct (decide (content m = LOADING_FLAT)); [|done].
  by apply session_consistent_dispatch.
Qed.

Lemma session_consistent_perform a s :
  session_consistent s -> session_consistent (perform a s).
Proof.
  destruct a; simpl; [apply session_consistent_stop | apply session_consistent_dispatch].
Qed.

Lemma session_consistent_deliver evs run s :
  session_consistent s -> session_consistent (fst (deliver evs run s)).
Proof.
  revert run s. induction evs as [|[text|a] evs IH]; intros run s Hs; simpl; [done| |].
  - unfold onMessageHandle. destruct (signal_aborted _ s); apply IH; [done|].
    by apply session_consistent_dispatch.
  - apply IH. by apply session_consistent_perform.
Qed.

Lemma session_consistent_send text s :
  session_consistent s -> session_consistent (fst (sendMessage text s)).
Proof.
  unfold sendMessage, realFetchAIResponse, getMessageId, nanoid, currentChats.
  intros Hs. destruct (decide (text = "")); [done|]. simpl.
  by destruct (genMessageId s).
Qed.

Lemma session_consistent_resend mid s :
  session_consistent s -> session_consistent (fst (resendMessage mid s)).
Proof.
  unfold resendMessage, realFetchAIResponse, getMessageId, nanoid, currentChats.
  intros Hs. destruct (findIndex mid (chats s)) as [[k m]|]; [|done].
  destruct (decide _); [done|]. destruct (last _); [|done].
  by destruct (genMessageId s).
Qed.

Lemma session_consistent_click key mid err s :
  session_consistent s -> session_consistent (fst (onActionsClick key mid err s)).
Proof.
  intros Hs. destruct key; simpl; [by apply session_consistent_dispatch|].
  pose proof (session_consistent_resend mid s Hs) as Hr.
  destruct (resendMessage mid s) as [s1 t]. simpl in *.
  destruct err; [by apply session_consistent_dispatch | done].
Qed.

Lemma session_consistent_resume t s :
  session_consistent s -> session_consistent (fst (resume t s)).
Proof.
  intros Hs. destruct t; [done| |done..].
  unfold resume, realFetchAIResponse_resume.
  apply session_consistent_generateMessage.
Qed.


Lemma session_consistent_settle stream t s :
  session_consistent s -> session_consistent (settle stream t s).
Proof.
  intros Hs. unfold settle.
  pose proof (session_consistent_resume t s Hs) as Hr.
  destruct (resume t s) as [s1 [| |run|]]; [done| done | | done].
  unfold consume. by destruct (fetchSSE stream run s1).
Qed.

(** *** The context window of a resend *)

Lemma findIndex_lookup i l k m :
  findIndex i l = Some (k, m) -> l !! k = Some m /\ id m = i.
Proof.
  unfold findIndex. intros H. apply list_find_Some in H as (Hk & Hid & _).
  by split.
Qed.

Lemma take_through (l : list ChatMessage) k m :
  l !! k = Some m -> take (k + 1) l = take k l ++ [m].
Proof. intros H. rewrite Nat.add_1_r. by apply take_S_r. Qed.

(** C2, as the code has it: the context of [resendMessage] is every message
    up to and including the target for a [user] or [function] target; for an
    [assistant] target whose [parentId] resolves it is every message up to
    and including the message the [parentId] names; for an [assistant]
    target whose [parentId] does not resolve it is every message up to and
    including the target.  That context is what [realFetchAIResponse]
    receives, with the last [user] message in it as the causal parent. *)
Theorem resendMessage_context s messageId currentIndex currentMessage :
  findIndex messageId (chats s) = Some (currentIndex, currentMessage) ->
  let ctx := contextMessages (chats s) currentIndex currentMessage in
  (role currentMessage = user \/ role currentMessage = function ->
     ctx = take currentIndex (chats s) ++ [currentMessage]) /\
  (role currentMessage = assistant ->
     forall userId userIndex parent,
       parentId currentMessage = Some userId ->
       findIndex userId (chats s) = Some (userIndex, parent) ->
       ctx = take userIndex (chats s) ++ [parent]) /\
  (role currentMessage = assistant ->
     (forall userId, parentId currentMessage = Some userId ->
                     findIndex userId (chats s) = None) ->
     ctx = take currentIndex (chats s) ++ [currentMessage]) /\
  (forall latestMsg,
     last (filter (fun m => role m = user) ctx) = Some latestMsg ->
     resendMessage messageId s = realFetchAIResponse ctx (id latestMsg) s).
Proof.
  intros Hfind ctx.
  destruct (findIndex_lookup _ _ _ _ Hfind) as [Hcur _].
  repeat split.
  - intros Hrole. subst ctx. unfold contextMessages.
    destruct Hrole as [-> | ->]; by apply take_through.
  - intros Hrole userId userIndex parent Hparent Hresolved.
    subst ctx. unfold contextMessages. rewrite Hrole, Hparent, Hresolved.
    apply take_through. by apply (findIndex_lookup userId).
  - intros Hrole Hdangling. subst ctx. unfold contextMessages. rewrite Hrole.
    destruct (parentId currentMessage) as [userId|].
    + rewrite (Hdangling userId eq_refl). by apply take_through.
    + by apply take_through.
  - intros latestMsg Hlatest. unfold resendMessage, currentChats.
    rewrite Hfind. fold ctx. rewrite Hlatest.
    destruct (decide (length ctx <= 0)) as [Hempty|]; [|done].
    assert (ctx = []) as Hnil by (apply length_zero_iff_nil; lia).
    rewrite Hnil in Hlatest. discriminate.
Qed.

(** *** Streaming *)

Lemma string_app_cons c (a b : string) : String c a +:+ b = String c (a +:+ b).
Proof. reflexivity. Qed.


Lemma string_app_nil_r (a : string) : a +:+ "" = a.
Proof.
  induction a as [|c a IH]; [done|]. by rewrite string_app_cons, IH.
Qed.

Lemma string_app_assoc (a b c : string) : (a +:+ b) +:+ c = a +:+ (b +:+ c).
Proof.
  induction a as [|x a IH]; [done|]. by rewrite !string_app_cons, IH.
Qed.




Lemma deliver_app evs1 evs2 run s :
  deliver (evs1 ++ evs2) run s =
    let '(s1, run1) := deliver evs1 run s in deliver evs2 run1 s1.
Proof.
  revert run s. induction evs1 as [|[text|a] evs1 IH]; intros run s; simpl; [done| |].
  - destruct (onMessageHandle text run s) as [s' run']. apply IH.
  - apply IH.
Qed.

Lemma onMessageHandle_run text run s :
  assistantId (snd (onMessageHandle text run s)) = assistantId run /\
  run_controller (snd (onMessageHandle text run s)) = run_controller run /\
  output (snd (onMessageHandle text run s)) = output run +:+ text.
Proof. unfold onMessageHandle. by destruct (signal_aborted _ s). Qed.

Lemma deliver_run evs run s :
  assistantId (snd (deliver evs run s)) = assistantId run /\
  run_controller (snd (deliver evs run s)) = run_controller run.
Proof.
  revert run s. induction evs as [|[text|a] evs IH]; intros run s; simpl; [done| |].
  - destruct (onMessageHandle text run s) as [s' run'] eqn:Hstep.
    destruct (onMessageHandle_run text run s) as (Hid & Hctl & _).
    rewrite Hstep in Hid, Hctl. simpl in Hid, Hctl.
    destruct (IH run' s') as [-> ->]. by split.
  - apply IH.
Qed.

(** A chunk that arrives once the signal has fired only grows [output]. *)
Lemma onMessageHandle_aborted text run s :
  signal_aborted (run_controller run) s = true ->
  onMessageHandle text run s =
    (s, mkGenRun (assistantId run) (run_controller run) (output run +:+ text)
          (isFunctionCall run) (postMessages run) (sent run)).
Proof. intros H. unfold onMessageHandle. by rewrite H. Qed.

Lemma stopGenerateMessage_controllers s :
  controllers (stopGenerateMessage s) =
    match abortController s with
    | Some h => alter S h (controllers s)
    | None => controllers s
    end.
Proof.
  unfold stopGenerateMessage.
  destruct (abortController s); destruct (last (chats s)) as [m|];
    try destruct (decide (content m = LOADING_FLAT)); done.
Qed.

(** No action un-fires a signal. *)
Lemma signal_aborted_perform h a s :
  signal_aborted h s = true -> signal_aborted h (perform a s) = true.
Proof.
  destruct a as [|payload]; simpl; [|done].
  intros H. unfold signal_aborted. rewrite stopGenerateMessage_controllers.
  destruct (abortController s) as [k|]; [|done].
  by apply (signal_aborted_abort_mono h k s).
Qed.

Lemma deliver_aborted evs run s :
  signal_aborted (run_controller run) s = true ->
  fst (deliver evs run s) = perform_all (user_actions evs) s /\
  sent (snd (deliver evs run s)) = sent run /\
  signal_aborted (run_controller run) (fst (deliver evs run s)) = true.
Proof.
  revert run s. induction evs as [|[text|a] evs IH]; intros run s Hfired; simpl.
  - done.
  - rewrite (onMessageHandle_aborted text run s Hfired). by apply (IH (mkGenRun _ _ _ _ _ _)).
  - apply IH. by apply signal_aborted_perform.
Qed.

(** C5: once the signal of a run's controller has fired, whatever the
    stream still delivers, the run dispatches nothing more: its record of
    dispatched content values stays as it was, and the store evolves as if
    the remaining frames were not there (only the interleaved user actions
    act on it). *)
Theorem no_dispatch_after_abort before after run s s1 run1 :
  deliver before run s = (s1, run1) ->
  signal_aborted (run_controller run) s1 = true ->
  exists s2 run2,
    deliver (before ++ after) run s = (s2, run2) /\
    sent run2 = sent run1 /\
    s2 = perform_all (user_actions after) s1 /\
    forall text, fst (onMessageHandle text run2 s2) = s2.
Proof.
  intros Hbefore Hfired.
  rewrite deliver_app, Hbefore.
  assert (run_controller run1 = run_controller run) as Hctl.
  { destruct (deliver_run before run s) as [_ H]. by rewrite Hbefore in H. }
  rewrite <- Hctl in Hfired.
  destruct (deliver_aborted after run1 s1 Hfired) as (Hstore & Hsent & Hstill).
  destruct (deliver after run1 s1) as [s2 run2] eqn:Hafter. simpl in *.
  exists s2, run2. repeat split; [done..|].
  intros text. rewrite onMessageHandle_aborted; [done|].
  destruct (deliver_run after run1 s1) as [_ H]. rewrite Hafter in H. simpl in H.
  by rewrite H.
Qed.






(** When nothing interleaves, the log holds exactly what the run sent. *)
Lemma deliver_frames_dispatched frames run s :
  exists new,
    sent (snd (deliver (map Frame frames) run s)) = sent run ++ new /\
    dispatched (fst (deliver (map Frame frames) run s)) =
      dispatched s ++ map (content_update (assistantId run)) new.
Proof.
  revert run s. induction frames as [|text frames IH]; intros run s; simpl.
  - exists []. by rewrite !app_nil_r.
  - unfold onMessageHandle. destruct (signal_aborted _ s).
    + match goal with |- context [deliver _ ?r ?st] =>
        destruct (IH r st) as (new & Hsent & Hlog) end.
      by exists new.
    + match goal with |- context [deliver _ ?r ?st] =>
        destruct (IH r st) as (new & Hsent & Hlog) end.
      simpl in *. eexists (_ :: new). rewrite Hsent, Hlog, <- !app_assoc.
      by split.
Qed.


(** *** Failure of the stream *)

Lemma findIndex_insert i l k m m' :
  findIndex i l = Some (k, m) -> id m' = i ->
  findIndex i (<[k := m']> l) = Some (k, m').
Proof.
  unfold findIndex. intros H Hid.
  apply list_find_Some in H as (Hk & _ & Hfirst).
  apply list_find_Some. split_and!.
  - apply list_lookup_insert_eq. by eapply lookup_lt_Some.
  - done.
  - intros j y Hj Hlt. rewrite list_lookup_insert_ne in Hj by lia.
    by apply (Hfirst j).
Qed.

Lemma on_message_found i f l k m :
  findIndex i l = Some (k, m) -> on_message i f l = <[k := f m]> l.
Proof. unfold on_message. by intros ->. Qed.


(** Frames delivered to a run whose signal has not fired, with nothing
    interleaved: the target message ends up holding the accumulated text,
    and nothing else in the store moves. *)
Lemma deliver_frames_content frames run s k m :
  signal_aborted (run_controller run) s = false ->
  findIndex (assistantId run) (chats s) = Some (k, m) ->
  exists m',
    chats (fst (deliver (map Frame frames) run s)) = <[k := m']> (chats s) /\
    findIndex (assistantId run) (chats (fst (deliver (map Frame frames) run s)))
      = Some (k, m') /\
    content m' = match frames with
                 | [] => content m
                 | _ => output run +:+ joined frames
                 end /\
    (id m' = id m /\ role m' = role m /\ parentId m' = parentId m /\
     extra m' = extra m /\ error m' = error m) /\
    abortController (fst (deliver (map Frame frames) run s)) = abortController s /\
    chatLoadingId (fst (deliver (map Frame frames) run s)) = chatLoadingId s /\
    controllers (fst (deliver (map Frame frames) run s)) = controllers s.
Proof.
  revert run s m. induction frames as [|text frames IH]; intros run s m Hlive Hfind.
  - exists m. simpl. split_and!; try done.
    destruct (findIndex_lookup _ _ _ _ Hfind) as [Hk _].
    symmetry. by apply list_insert_id.
  - simpl. unfold onMessageHandle. rewrite Hlive.
    set (m1 := apply_update (SetContent (output run +:+ text)) m).
    match goal with |- context [deliver _ ?r ?st] =>
      set (run1 := r); set (s1 := st) end.
    assert (chats s1 = <[k := m1]> (chats s)) as Hchats1.
    { subst s1. simpl. by rewrite (on_message_found _ _ _ _ _ Hfind). }
    assert (findIndex (assistantId run1) (chats s1) = Some (k, m1)) as Hfind1.
    { rewrite Hchats1. apply (findIndex_insert _ _ _ m); [exact Hfind|].
      by destruct (findIndex_lookup _ _ _ _ Hfind). }
    destruct (IH run1 s1 m1 Hlive Hfind1)
      as (m' & Hchats & Hfind' & Hcontent & Hsame & Hctl & Hid & Hheap).
    destruct Hsame as (Hs1 & Hs2 & Hs3 & Hs4 & Hs5).
    exists m'. split_and!; try done.
    + rewrite Hchats, Hchats1. apply list_insert_insert_eq.
    + rewrite Hcontent. destruct frames as [|f frames'].
      * simpl. by rewrite string_app_nil_r.
      * subst run1. simpl. by rewrite string_app_assoc.
Qed.

(** C4: when the stream fails after any number of frames, the error
    descriptor lands in the [error] field of the target message, whose
    content is the text accumulated from the frames (its previous content
    when there was none) and whose other fields are as before; every other
    message is untouched; [generateMessage] returns and the session
    ([abortController] and [chatLoadingId]) is cleared.  There is a stream
    whenever preprocessing has produced the messages to post; otherwise the
    call is rejected before any stream. *)
Theorem stream_failure_recorded messages target frames e s k m :
  findIndex target (chats s) = Some (k, m) ->
  (forall posted, preprocess (config s) messages = Some posted ->
   exists s1 run m',
     generateMessage messages target s = (s1, AwaitSSE run) /\
     let final := fst (consume (mkStream (map Frame frames) (Some e)) run s1) in
     chats final = <[k := m']> (chats s) /\
     findIndex target (chats final) = Some (k, m') /\
     error m' = Some e /\
     content m' = match frames with [] => content m | _ => joined frames end /\
     (id m' = id m /\ role m' = role m /\ parentId m' = parentId m /\
      extra m' = extra m) /\
     abortController final = None /\
     chatLoadingId final = None) /\
  (preprocess (config s) messages = None ->
   exists s1, generateMessage messages target s = (s1, Rejected)).
Proof.
  intros Hfind.
  split; [|intros Hposted; rewrite (generateMessage_rejected _ _ _ Hposted);
           by eexists].
  intros posted Hposted. rewrite (generateMessage_eq _ _ _ _ Hposted).
  match goal with |- context [(?st, AwaitSSE ?r) = _] =>
    set (run := r); set (s1 := st) end.
  exists s1, run.
  assert (signal_aborted (run_controller run) s1 = false) as Hlive.
  { unfold signal_aborted. subst run s1. simpl.
    rewrite lookup_app_r by lia. by rewrite Nat.sub_diag. }
  destruct (deliver_frames_content frames run s1 k m Hlive Hfind)
    as (m1 & Hchats & Hfind1 & Hcontent & (Hi & Hr & Hp & Hx & He) & _).
  exists (apply_update (SetError e) m1). split; [reflexivity|].
  intros final. subst final. unfold consume, fetchSSE. cbn [events failure].
  destruct (deliver (map Frame frames) run s1) as [s2 run2] eqn:Hdeliver.
  assert (assistantId run2 = target) as Hrun2.
  { destruct (deliver_run (map Frame frames) run s1) as [H _].
    by rewrite Hdeliver in H. }
  simpl in *. rewrite Hrun2, (on_message_found _ _ _ _ _ Hfind1), Hchats.
  split_and!; rewrite ?list_insert_insert_eq; try done.
  apply (findIndex_insert _ _ _ m); [exact Hfind|].
  rewrite Hi. by destruct (findIndex_lookup _ _ _ _ Hfind).
Qed.

(** *** Stopping *)

Lemma findIndex_last before m :
  findIndex (id m) before = None ->
  findIndex (id m) (before ++ [m]) = Some (length before, m).
Proof.
  unfold findIndex. intros Hnone. rewrite list_find_app_r by done.
  simpl. by rewrite decide_True.
Qed.

(** What [stopGenerateMessage] dispatches: one update addressed to
    [chatLoadingId] when the last message holds the sentinel, nothing
    otherwise. *)
Lemma stopGenerateMessage_dispatch s lastChat :
  last (chats s) = Some lastChat -> content lastChat = LOADING_FLAT ->
  dispatched (stopGenerateMessage s) =
    dispatched s ++ [UpdateMessage (chatLoadingId s) (SetContent "")] /\
  chats (stopGenerateMessage s) =
    messagesReducer (chats s) (UpdateMessage (chatLoadingId s) (SetContent "")).
Proof.
  intros Hlast Hflat. unfold stopGenerateMessage.
  rewrite Hlast, decide_True by done. by destruct (abortController s).
Qed.

(** C6, as the code has it: when the last message is the one being
    generated (its id is [chatLoadingId]) and its content is the loading
    sentinel, [stopGenerateMessage] dispatches an update that clears that
    message's content to the empty string.  With a session active it calls
    [abort()] on the handle and clears [abortController] and
    [chatLoadingId].  With no session active the conversation and the
    session fields are unchanged. *)
Theorem stopGenerateMessage_spec s :
  session_consistent s ->
  (forall before lastChat,
     chats s = before ++ [lastChat] -> content lastChat = LOADING_FLAT ->
     chatLoadingId s = Some (id lastChat) ->
     findIndex (id lastChat) before = None ->
     dispatched (stopGenerateMessage s) =
       dispatched s ++ [UpdateMessage (Some (id lastChat)) (SetContent "")] /\
     chats (stopGenerateMessage s) =
       before ++ [apply_update (SetContent "") lastChat]) /\
  (forall h,
     abortController s = Some h ->
     abort_calls h (stopGenerateMessage s) = S (abort_calls h s) /\
     signal_aborted h (stopGenerateMessage s) = true /\
     abortController (stopGenerateMessage s) = None /\
     chatLoadingId (stopGenerateMessage s) = None) /\
  (abortController s = None ->
     chats (stopGenerateMessage s) = chats s /\
     abortController (stopGenerateMessage s) = None /\
     chatLoadingId (stopGenerateMessage s) = None /\
     controllers (stopGenerateMessage s) = controllers s).
Proof.
  intros Hs. split_and!.
  - intros before lastChat Hchats Hflat Hloading Hfresh.
    destruct (stopGenerateMessage_dispatch s lastChat) as [-> ->];
      [by rewrite Hchats, last_snoc | done |].
    rewrite Hloading, Hchats. split; [done|]. simpl.
    rewrite (on_message_found _ _ _ _ _ (findIndex_last _ _ Hfresh)).
    rewrite <- (Nat.add_0_r (length before)). by rewrite insert_app_r.
  - intros h Hactive.
    unfold session_consistent in Hs. rewrite Hactive in Hs. destruct Hs as [Hh _].
    assert (controllers (stopGenerateMessage s) = alter S h (controllers s)) as Hheap.
    { by rewrite stopGenerateMessage_controllers, Hactive. }
    destruct (lookup_lt_is_Some_2 (controllers s) h Hh) as [n Hn].
    unfold abort_calls, signal_aborted. rewrite Hheap, list_lookup_alter_eq, Hn.
    split_and!; try done.
    all: unfold stopGenerateMessage; rewrite Hactive; done.
  - intros Hidle.
    unfold session_consistent in Hs. rewrite Hidle in Hs.
    unfold stopGenerateMessage. rewrite Hidle, Hs.
    destruct (last (chats s)) as [m|]; [|done].
    by destruct (decide (content m = LOADING_FLAT)).
Qed.

(** *** Regenerating from the message list *)

Lemma filter_other_ids mid (l : list ChatMessage) :
  mid ∉ map id l -> filter (fun m => id m <> mid) l = l.
Proof.
  induction l as [|x l IH]; [done|]. simpl. intros Hnotin.
  apply not_elem_of_cons in Hnotin as [Hx Hl].
  rewrite filter_cons_True by done. by rewrite IH.
Qed.

(** Under the unique-id invariant, deleting "the message with that id"
    leaves exactly the messages with another id. *)
Lemma deleteMessage_chats mid l :
  NoDup (map id l) ->
  messagesReducer l (DeleteMessage mid) = filter (fun m => id m <> mid) l.
Proof.
  simpl. unfold findIndex. induction l as [|x l IH]; [done|].
  simpl. intros Hnodup. apply NoDup_cons in Hnodup as [Hx Hl].
  destruct (decide (has_id mid x)) as [Hid|Hid].
  - simpl. unfold has_id in Hid. subst mid.
    rewrite filter_cons_False by (intros H; by apply H).
    by rewrite filter_other_ids.
  - rewrite filter_cons_True by (intros H; by apply Hid).
    specialize (IH Hl). destruct (list_find (has_id mid) l) as [[k m]|]; simpl.
    + by rewrite IH.
    + by rewrite <- IH.
Qed.

Lemma on_message_ids i f l :
  (forall m, id (f m) = id m) -> map id (on_message i f l) = map id l.
Proof.
  intros Hf. unfold on_message. destruct (findIndex i l) as [[k m]|] eqn:Hfind; [|done].
  destruct (findIndex_lookup _ _ _ _ Hfind) as [Hk _].
  rewrite <- (list_insert_id l k m) at 2 by done.
  change (map id) with (fmap (M:=list) id). rewrite !list_fmap_insert.
  by rewrite Hf.
Qed.

(** [resendMessage] touches neither the conversation nor the session before
    it suspends, and has not called the model. *)
Lemma resendMessage_store mid s :
  chats (fst (resendMessage mid s)) = chats s /\
  dispatched (fst (resendMessage mid s)) = dispatched s /\
  config (fst (resendMessage mid s)) = config s /\
  fetched (fst (resendMessage mid s)) = fetched s /\
  chatLoadingId (fst (resendMessage mid s)) = chatLoadingId s.
Proof.
  unfold resendMessage, realFetchAIResponse, getMessageId, currentChats.
  destruct (findIndex mid (chats s)) as [[k m]|]; [|done].
  destruct (decide _); [done|].
  destruct (last _); [|done].
  by destruct (genMessageId s).
Qed.

(** What the continuation of [realFetchAIResponse] dispatches, the ids it
    leaves in the conversation, and how it ends: suspended on the stream
    with one request made, or rejected with none. *)
Lemma realFetchAIResponse_resume_effect messages uid new s :
  dispatched (fst (realFetchAIResponse_resume messages uid new s)) =
    dispatched s ++ [AddMessage new LOADING_FLAT (Some uid) assistant;
                     UpdateMessageExtra new "fromModel" (model (config s))] /\
  map id (chats (fst (realFetchAIResponse_resume messages uid new s))) =
    map id (chats s) ++ [new] /\
  chatLoadingId (fst (realFetchAIResponse_resume messages uid new s)) = Some new /\
  (forall posted, preprocess (config s) messages = Some posted ->
     exists run call,
       snd (realFetchAIResponse_resume messages uid new s) = AwaitSSE run /\
       assistantId run = new /\
       postMessages run = posted /\
       fetched (fst (realFetchAIResponse_resume messages uid new s)) =
         fetched s ++ [call] /\
       fetch_messages call = posted /\
       fetch_model call = model (config s)) /\
  (preprocess (config s) messages = None ->
     snd (realFetchAIResponse_resume messages uid new s) = Rejected /\
     fetched (fst (realFetchAIResponse_resume messages uid new s)) = fetched s).
Proof.
  unfold realFetchAIResponse_resume.
  match goal with |- context [generateMessage messages new ?st] => set (s2 := st) end.
  destruct (generateMessage_store messages new s2) as (Hchats & _ & Hid & _ & _ & _ & Hlog).
  rewrite Hchats, Hid, Hlog. subst s2. simpl.
  split; [by rewrite <- app_assoc|].
  split; [rewrite on_message_ids by done; by rewrite map_app|].
  split; [done|]. split.
  - intros posted Hposted.
    rewrite (generateMessage_eq messages new _ posted) by exact Hposted.
    eexists _, _. by split_and!.
  - intros Hposted.
    by rewrite (generateMessage_rejected messages new _) by exact Hposted.
Qed.

(** What [resendMessage] returns when the target is there and its context
    holds a [user] message: it waits for the id of the new reply. *)
Lemma resendMessage_starts mid s i m latest :
  findIndex mid (chats s) = Some (i, m) ->
  last (filter (fun c => role c = user) (contextMessages (chats s) i m)) = Some latest ->
  snd (resendMessage mid s) =
    AwaitMessageId (contextMessages (chats s) i m) (id latest)
      match genMessageId s with
      | Some gen => gen (contextMessages (chats s) i m) (id latest)
      | None => nanoid_value (nanoid_calls s)
      end.
Proof.
  intros Hfind Hlatest. unfold resendMessage, currentChats. rewrite Hfind.
  destruct (decide (length (contextMessages (chats s) i m) <= 0)) as [Hempty|_].
  { assert (contextMessages (chats s) i m = []) as Hnil
      by (apply length_zero_iff_nil; lia).
    rewrite Hnil in Hlatest. discriminate. }
  rewrite Hlatest. unfold realFetchAIResponse, getMessageId, nanoid.
  by destruct (genMessageId s).
Qed.

(** C7, as the code has it: it is the [regenerate] action of the message
    list that deletes an errored message, not [resendMessage].  The action
    starts [resendMessage], which suspends before it dispatches anything,
    and then dispatches the deletion when the message holds an error;
    without an error nothing is deleted.  Whenever the target is in the
    conversation and its context holds a [user] message, the retry runs
    after that: it appends the new reply and starts its generation, so the
    conversation holds the new id and, for an errored target, no longer the
    errored message. *)
Theorem regenerate_deletes_errored mid err s :
  NoDup (map id (chats s)) ->
  exists s',
    onActionsClick regenerate mid err s = (s', snd (resendMessage mid s)) /\
    match err with
    | Some _ =>
        chats s' = filter (fun m => id m <> mid) (chats s) /\
        dispatched s' = dispatched s ++ [DeleteMessage mid]
    | None => chats s' = chats s /\ dispatched s' = dispatched s
    end /\
    fetched s' = fetched s /\
    chatLoadingId s' = chatLoadingId s /\
    forall i m latest,
      findIndex mid (chats s) = Some (i, m) ->
      last (filter (fun c => role c = user) (contextMessages (chats s) i m))
        = Some latest ->
      let context := contextMessages (chats s) i m in
      let new := match genMessageId s with
                 | Some gen => gen context (id latest)
                 | None => nanoid_value (nanoid_calls s)
                 end in
      let retry := AwaitMessageId context (id latest) new in
      snd (resendMessage mid s) = retry /\
      dispatched (fst (resume retry s')) =
        dispatched s' ++ [AddMessage new LOADING_FLAT (Some (id latest)) assistant;
                          UpdateMessageExtra new "fromModel" (model (config s))] /\
      map id (chats (fst (resume retry s'))) = map id (chats s') ++ [new] /\
      chatLoadingId (fst (resume retry s')) = Some new /\
      (forall posted, preprocess (config s) context = Some posted ->
         exists run call,
           snd (resume retry s') = AwaitSSE run /\
           assistantId run = new /\
           fetched (fst (resume retry s')) = fetched s' ++ [call] /\
           fetch_messages call = posted).
Proof.
  intros Hnodup. unfold onActionsClick.
  destruct (resendMessage_store mid s) as (Hchats & Hlog & Hcfg & Hfetched & Hloading).
  pose proof (resendMessage_starts mid s) as Hstarts.
  destruct (resendMessage mid s) as [s1 t]. simpl in *.
  eexists. split; [reflexivity|]. split_and!.
  - destruct err as [e|]; [|done].
    unfold deleteMessage. simpl. rewrite Hchats, Hlog.
    split; [|done]. by apply deleteMessage_chats.
  - by destruct err.
  - by destruct err.
  - intros i m latest Hfind Hlatest.
    split; [by apply Hstarts|]. unfold resume.
    match goal with |- context [realFetchAIResponse_resume ?c ?u ?n ?st] =>
      destruct (realFetchAIResponse_resume_effect c u n st)
        as (Hd & Hi & Hl & Hok & _);
      assert (config st = config s) as Hcfg' by (by destruct err)
    end.
    rewrite Hcfg' in Hd, Hok. split_and!; try done.
    intros posted Hposted.
    destruct (Hok posted Hposted) as (run & call & Hrun & Hid & _ & Hf & Hm & _).
    by exists run, call.
Qed.

(** *** Sending *)

Lemma sendMessage_empty s : sendMessage "" s = (s, Settled).
Proof. reflexivity. Qed.

(** [sendMessage] with a non-empty text, up to its first suspension. *)
Lemma sendMessage_eq text s :
  text <> "" ->
  let userId := nanoid_value (nanoid_calls s) in
  let messages := chats s ++ [mkChatMessage userId user text None ∅ None] in
  let mid := match genMessageId s with
             | Some gen => gen messages userId
             | None => nanoid_value (S (nanoid_calls s))
             end in
  exists s1,
    sendMessage text s = (s1, AwaitMessageId messages userId mid) /\
    chats s1 = messages /\
    dispatched s1 = dispatched s ++ [AddMessage userId text None user] /\
    config s1 = config s /\
    abortController s1 = abortController s /\
    chatLoadingId s1 = chatLoadingId s.
Proof.
  intros Htext userId messages mid. unfold sendMessage.
  rewrite decide_False by done.
  unfold realFetchAIResponse, getMessageId, currentChats, nanoid. simpl.
  subst mid. destruct (genMessageId s); eexists; (split; [reflexivity|done]).
Qed.

(** C8: [sendMessage] with the empty text changes nothing.  With a
    non-empty text on an empty conversation it appends a user message with
    the given content and the next generated id; once the id of the reply is
    there, the continuation appends the assistant placeholder (sentinel
    content, [parentId] the user message's id) and starts the generation,
    which sets [chatLoadingId] to the placeholder's id.  The conversation
    then holds exactly these two messages.  The generation is suspended on
    its stream whenever preprocessing has produced the messages to post. *)
Theorem sendMessage_spec text s :
  sendMessage "" s = (s, Settled) /\
  (text <> "" -> chats s = [] ->
   exists s1 messages userId mid s2 t controller u a,
     sendMessage text s = (s1, AwaitMessageId messages userId mid) /\
     userId = nanoid_value (nanoid_calls s) /\
     resume (AwaitMessageId messages userId mid) s1 = (s2, t) /\
     chats s2 = [u; a] /\
     (id u = userId /\ role u = user /\ content u = text /\ parentId u = None) /\
     (id a = mid /\ role a = assistant /\ content a = LOADING_FLAT /\
      parentId a = Some userId) /\
     chatLoadingId s2 = Some mid /\
     abortController s2 = Some controller /\
     (forall posted, preprocess (config s) messages = Some posted ->
        exists run, t = AwaitSSE run /\ assistantId run = mid /\
          run_controller run = controller /\ postMessages run = posted) /\
     (preprocess (config s) messages = None -> t = Rejected)).
Proof.
  split; [apply sendMessage_empty|].
  intros Htext Hempty.
  destruct (sendMessage_eq text s Htext) as (s1 & Hsend & Hchats & _ & Hcfg & _).
  rewrite Hempty in Hsend, Hchats. simpl in Hsend, Hchats.
  set (userId := nanoid_value (nanoid_calls s)) in *.
  set (u0 := mkChatMessage userId user text None ∅ None) in *.
  set (mid := match genMessageId s with
              | Some gen => gen [u0] userId
              | None => nanoid_value (S (nanoid_calls s))
              end) in *.
  exists s1, [u0], userId, mid.
  unfold resume, realFetchAIResponse_resume.
  match goal with |- context [generateMessage [u0] mid ?st] => set (s2 := st) end.
  destruct (generateMessage_store [u0] mid s2)
    as (Hconv & Hctl & Hid & _ & _ & _ & _).
  destruct (generateMessage_task [u0] mid s2) as [Htask _].
  assert (config s2 = config s) as Hcfg2 by (subst s2; simpl; exact Hcfg).
  rewrite Hcfg2 in Htask.
  assert (exists u a, chats s2 = [u; a] /\
            (id u = userId /\ role u = user /\
             content u = text /\ parentId u = None) /\
            (id a = mid /\ role a = assistant /\ content a = LOADING_FLAT /\
             parentId a = Some userId))
    as (u & a & Hchats2 & Hu & Ha).
  { subst s2. simpl. rewrite Hchats. unfold on_message, findIndex, list_find. simpl.
    destruct (decide (has_id mid u0)) as [Hsame|Hother]; simpl.
    - eexists _, _. by split.
    - rewrite decide_True by done. simpl. eexists _, _. by split. }
  destruct (generateMessage [u0] mid s2) as [s3 t]. simpl in *.
  exists s3, t, (length (controllers s1)), u, a.
  split; [exact Hsend|]. split; [done|]. split; [done|].
  split; [by rewrite Hconv|]. do 4 (split; [done|]). split.
  - intros posted Hposted. rewrite Hposted in Htask. eexists. by split.
  - intros Hposted. by rewrite Hposted in Htask.
Qed.

(** C10: the user message that [sendMessage] adds takes its id from the
    built-in generator whatever [genMessageId] is; the override, when there
    is one, yields the id under which the continuation adds the assistant
    placeholder (otherwise that id is the generator's next one). *)
Theorem sendMessage_ids text s :
  text <> "" ->
  let userId := nanoid_value (nanoid_calls s) in
  let messages := chats s ++ [mkChatMessage userId user text None ∅ None] in
  let mid := match genMessageId s with
             | Some gen => gen messages userId
             | None => nanoid_value (S (nanoid_calls s))
             end in
  exists s1,
    sendMessage text s = (s1, AwaitMessageId messages userId mid) /\
    dispatched s1 = dispatched s ++ [AddMessage userId text None user] /\
    dispatched (fst (resume (AwaitMessageId messages userId mid) s1)) =
      dispatched s1 ++ [AddMessage mid LOADING_FLAT (Some userId) assistant;
                        UpdateMessageExtra mid "fromModel" (model (config s))].
Proof.
  intros Htext userId messages mid.
  destruct (sendMessage_eq text s Htext) as (s1 & Hsend & _ & Hlog & Hcfg & _).
  exists s1. split; [exact Hsend|]. split; [exact Hlog|].
  unfold resume.
  destruct (realFetchAIResponse_resume_effect messages userId mid s1) as [Hd _].
  by rewrite Hcfg in Hd.
Qed.

(** *** Preprocessing *)

Lemma compilerMessages_lookup tpl compiler sliced compiled i m :
  template tpl = Some compiler ->
  compilerMessages tpl sliced = Some compiled ->
  sliced !! i = Some m ->
  compiled !! i =
    Some (if decide (role m = user) then
            match compiler (content m) with
            | Some text =>
                mkChatMessage (id m) (role m) text (parentId m) (extra m) (error m)
            | None => m
            end
          else m).
Proof.
  intros Hcompiler Hcompiled Hm. unfold compilerMessages in Hcompiled.
  rewrite Hcompiler in Hcompiled. injection Hcompiled as <-.
  change (@map ChatMessage ChatMessage) with (@fmap list _ ChatMessage ChatMessage).
  by rewrite list_lookup_fmap, Hm.
Qed.

(** The part of the preprocessing that works as intended: with an input
    template that compiles, the content of [user] messages is rewritten with
    the template and every other message is passed through unchanged; a
    [user] message for which the application of the template throws is
    passed through unchanged as well, and the generation goes on with the
    preprocessed messages. *)
Lemma compiled_template_user_only messages target s tpl compiler :
  truthy (inputTemplate (config s)) = Some tpl ->
  template tpl = Some compiler ->
  let sliced := getSlicedMessagesWithConfig messages (config s) in
  exists compiled,
    compilerMessages tpl sliced = Some compiled /\
    length compiled = length sliced /\
    (forall i m, sliced !! i = Some m -> role m <> user -> compiled !! i = Some m) /\
    (forall i m, sliced !! i = Some m -> role m = user ->
       compiler (content m) = None -> compiled !! i = Some m) /\
    (forall i m text, sliced !! i = Some m -> role m = user ->
       compiler (content m) = Some text ->
       exists m', compiled !! i = Some m' /\ content m' = text /\
         id m' = id m /\ role m' = role m /\ parentId m' = parentId m /\
         extra m' = extra m /\ error m' = error m) /\
    exists s1 run,
      generateMessage messages target s = (s1, AwaitSSE run) /\
      postMessages run =
        match truthy (systemRole (config s)) with
        | Some sr => systemMessage sr :: compiled
        | None => compiled
        end /\
      fetched s1 =
        fetched s ++ [mkFetchCall (postMessages run) (model (config s)) (run_controller run)].
Proof.
  intros Htpl Hcompiler sliced.
  destruct (compilerMessages tpl sliced) as [compiled|] eqn:Hcompiled;
    [|unfold compilerMessages in Hcompiled; by rewrite Hcompiler in Hcompiled].
  exists compiled. split; [done|]. split_and!.
  - unfold compilerMessages in Hcompiled. rewrite Hcompiler in Hcompiled.
    injection Hcompiled as <-. apply length_map.
  - intros i m Hm Hrole.
    rewrite (compilerMessages_lookup _ _ _ _ _ _ Hcompiler Hcompiled Hm).
    by rewrite decide_False.
  - intros i m Hm Hrole Hthrow.
    rewrite (compilerMessages_lookup _ _ _ _ _ _ Hcompiler Hcompiled Hm).
    by rewrite decide_True, Hthrow.
  - intros i m text Hm Hrole Hok.
    rewrite (compilerMessages_lookup _ _ _ _ _ _ Hcompiler Hcompiled Hm),
      decide_True, Hok by done.
    eexists. by split.
  - assert (preprocess (config s) messages =
              Some match truthy (systemRole (config s)) with
                   | Some sr => systemMessage sr :: compiled
                   | None => compiled
                   end) as Hposted.
    { unfold preprocess. rewrite Htpl. fold sliced. by rewrite Hcompiled. }
    rewrite (generateMessage_eq _ _ _ _ Hposted). eexists _, _. by split.
Qed.

(** C9: the code misses the case of an input template that does not
    compile.  The template is compiled outside the guarded application, so
    with such a template every send with a non-empty text is rejected: the
    continuation of [sendMessage] adds the placeholder, [generateMessage]
    sets the session and then fails before any request is made, and the
    session is left set, since the end of the generation is never reached,
    whatever the stream would have delivered. *)
Theorem uncompiled_template_rejects text s tpl :
  text <> "" ->
  truthy (inputTemplate (config s)) = Some tpl ->
  template tpl = None ->
  exists s1 messages userId mid s2,
    sendMessage text s = (s1, AwaitMessageId messages userId mid) /\
    resume (AwaitMessageId messages userId mid) s1 = (s2, Rejected) /\
    preprocess (config s) messages = None /\
    fetched s2 = fetched s /\
    chatLoadingId s2 = Some mid /\
    abortController s2 = Some (length (controllers s)) /\
    forall stream, settle stream (AwaitMessageId messages userId mid) s1 = s2.
Proof.
  intros Htext Htpl Hcompile.
  destruct (sendMessage_eq text s Htext)
    as (s1 & Hsend & Hchats & _ & Hcfg & _).
  eexists s1, _, _, _. eexists. split; [exact Hsend|].
  assert (forall messages, preprocess (config s) messages = None) as Hnone.
  { intros messages. unfold preprocess, compilerMessages.
    by rewrite Htpl, Hcompile. }
  unfold settle, resume, realFetchAIResponse_resume.
  rewrite (generateMessage_rejected _ _ _) by (simpl; rewrite Hcfg; apply Hnone).
  split; [reflexivity|]. simpl. split; [apply Hnone|].
  assert (fetched s1 = fetched s /\ controllers s1 = controllers s) as [Hf Hc].
  { unfold sendMessage in Hsend. rewrite decide_False in Hsend by done.
    unfold realFetchAIResponse, getMessageId, currentChats, nanoid in Hsend.
    destruct (genMessageId s); apply (f_equal fst) in Hsend; simpl in Hsend;
      by subst s1. }
  by rewrite Hf, Hc.
Qed.

(** * Further actions and properties *)

(** ** More of the store and of the list component *)

(** [clearMessage], lines 124-133, once the optional [onResetMessage] hook
    has resolved: the reset is dispatched. *)
Definition clearMessage (s : ChatStore) : ChatStore :=
  dispatchMessage ResetMessages s.

(** [onMessageChange], lines 65-67 of the list component: an edit of a
    message's text. *)
Definition onMessageChange (mid : string) (text : string) (s : ChatStore) : ChatStore :=
  dispatchMessage (UpdateMessage (Some mid) (SetContent text)) s.

(** The frames of a stretch of stream events, user actions left out. *)
Definition frames_of (evs : list StreamEvent) : list string :=
  omap (fun ev => match ev with Frame text => Some text | Interleaved _ => None end) evs.

(** The texts accumulated frame after frame, starting from [acc]. *)
Fixpoint accumulated (acc : string) (frames : list string) : list string :=
  match frames with
  | [] => []
  | text :: rest => (acc +:+ text) :: accumulated (acc +:+ text) rest
  end.

(** ** Which resends start a retry *)

Lemma last_filter_snoc (P : ChatMessage -> Prop) `{!forall m, Decision (P m)} l m :
  P m -> last (filter P (l ++ [m])) = Some m.
Proof.
  intros Hm. rewrite filter_app, list.filter_singleton_True by done.
  apply last_snoc.
Qed.

(** X1: [resendMessage] returns without doing anything exactly when the
    target is not in the conversation or its context holds no [user]
    message; the store is then unchanged.  A [system] target is such a
    case. *)
Theorem resendMessage_idle_iff messageId s :
  (snd (resendMessage messageId s) = Settled <->
     match findIndex messageId (chats s) with
     | None => True
     | Some (i, m) =>
         filter (fun c => role c = user) (contextMessages (chats s) i m) = []
     end) /\
  (snd (resendMessage messageId s) = Settled ->
     fst (resendMessage messageId s) = s) /\
  (forall i m, findIndex messageId (chats s) = Some (i, m) -> role m = system ->
     resendMessage messageId s = (s, Settled)).
Proof.
  unfold resendMessage, currentChats.
  destruct (findIndex messageId (chats s)) as [[i m]|] eqn:Hfind.
  - set (ctx := contextMessages (chats s) i m).
    assert (forall parent, snd (realFetchAIResponse ctx parent s) <> Settled) as Hstarts.
    { intros parent. unfold realFetchAIResponse.
      by destruct (getMessageId ctx parent s). }
    split_and!.
    + destruct (decide (length ctx <= 0)) as [Hlen|Hlen].
      * assert (ctx = []) as -> by (apply length_zero_iff_nil; lia). done.
      * destruct (last (filter _ ctx)) as [latest|] eqn:Hlast.
        -- split; [intros H; by apply Hstarts in H|].
           intros Hnone. by rewrite Hnone in Hlast.
        -- apply last_None in Hlast. done.
    + destruct (decide (length ctx <= 0)); [done|].
      destruct (last (filter _ ctx)) as [latest|]; [|done].
      intros H. by apply Hstarts in H.
    + intros i' m' [= <- <-] Hrole. subst ctx. unfold contextMessages.
      by rewrite Hrole.
  - split_and!; done.
Qed.

(** X2: resending a [user] message retries from that very message: the
    context is the conversation up to and including it, and it is the
    causal parent of the new reply. *)
Theorem resendMessage_user_target messageId s i m :
  findIndex messageId (chats s) = Some (i, m) ->
  role m = user ->
  resendMessage messageId s =
    realFetchAIResponse (take i (chats s) ++ [m]) messageId s.
Proof.
  intros Hfind Hrole. destruct (findIndex_lookup _ _ _ _ Hfind) as [Hi Hid].
  unfold resendMessage, currentChats, contextMessages. rewrite Hfind, Hrole.
  rewrite (take_through _ _ _ Hi).
  rewrite decide_False by (rewrite length_app; simpl; lia).
  rewrite last_filter_snoc by done. by rewrite Hid.
Qed.

(** X3: resending an [assistant] message whose [parentId] names a [user]
    message retries from that parent: the context is the conversation up to
    and including the parent, the parent is the causal parent of the new
    reply, and when the parent comes before the target the old reply is not
    part of the context. *)
Theorem resendMessage_assistant_target messageId s i m u k p :
  findIndex messageId (chats s) = Some (i, m) ->
  role m = assistant ->
  parentId m = Some u ->
  findIndex u (chats s) = Some (k, p) ->
  role p = user ->
  resendMessage messageId s = realFetchAIResponse (take k (chats s) ++ [p]) u s /\
  (k < i -> findIndex messageId (take k (chats s) ++ [p]) = None).
Proof.
  intros Hfind Hrole Hparent Hresolved Hprole.
  destruct (findIndex_lookup _ _ _ _ Hresolved) as [Hk Hpid].
  split.
  - unfold resendMessage, currentChats, contextMessages.
    rewrite Hfind, Hrole, Hparent, Hresolved, (take_through _ _ _ Hk).
    rewrite decide_False by (rewrite length_app; simpl; lia).
    rewrite last_filter_snoc by done. by rewrite Hpid.
  - intros Hearlier. rewrite <- (take_through _ _ _ Hk).
    unfold findIndex in *. apply list_find_None, Forall_lookup.
    intros j y Hj. apply lookup_take_Some in Hj as [Hj Hlt].
    apply list_find_Some in Hfind as (_ & _ & Hfirst).
    apply (Hfirst j y Hj). lia.
Qed.

(** ** What the model is sent *)

(** How a posted message relates to the history message it comes from: all
    fields but the content are kept, and the content too unless the message
    is a [user] message. *)
Definition same_but_user_content (m m' : ChatMessage) : Prop :=
  id m' = id m /\ role m' = role m /\ parentId m' = parentId m /\
  extra m' = extra m /\ error m' = error m /\
  (role m <> user -> content m' = content m).

Lemma compilerMessages_shape tpl sliced compiled :
  compilerMessages tpl sliced = Some compiled ->
  Forall2 same_but_user_content sliced compiled.
Proof.
  unfold compilerMessages. destruct (template tpl) as [compiler|]; [|done].
  intros [= <-]. induction sliced as [|m sliced IH]; simpl; [constructor|].
  constructor; [|exact IH].
  destruct (decide (role m = user)) as [Huser|Hother].
  - destruct (compiler (content m)); unfold same_but_user_content; simpl;
      by split_and!.
  - unfold same_but_user_content. by split_and!.
Qed.

Lemma same_but_user_content_refl l : Forall2 same_but_user_content l l.
Proof.
  induction l as [|m l IH]; constructor; [|exact IH].
  unfold same_but_user_content. by split_and!.
Qed.

(** X4: preprocessing yields no messages exactly when a non-empty input
    template is configured and does not compile.  Otherwise it keeps the
    history messages in number and order, with their id, role, parentId,
    extra and error; at most the content of [user] messages differs.  They
    are preceded by one system message when a non-empty system role is
    configured, and by nothing otherwise.  An input template that is absent
    or the empty string changes no message at all. *)
Theorem preprocess_shape cfg messages :
  (preprocess cfg messages = None <->
     exists tpl, truthy (inputTemplate cfg) = Some tpl /\ template tpl = None) /\
  (forall posted, preprocess cfg messages = Some posted ->
     exists body,
       posted =
         match systemRole cfg with
         | Some sr => if decide (sr = "") then body else systemMessage sr :: body
         | None => body
         end /\
       Forall2 same_but_user_content (getSlicedMessagesWithConfig messages cfg) body /\
       (inputTemplate cfg = None \/ inputTemplate cfg = Some "" ->
        body = getSlicedMessagesWithConfig messages cfg)).
Proof.
  unfold preprocess.
  destruct (truthy (inputTemplate cfg)) as [tpl|] eqn:Htpl.
  - destruct (compilerMessages tpl (getSlicedMessagesWithConfig messages cfg))
      as [compiled|] eqn:Hcompiled.
    + split.
      * split; [done|]. intros (tpl' & [= <-] & Hnone).
        unfold compilerMessages in Hcompiled. by rewrite Hnone in Hcompiled.
      * intros posted [= <-]. exists compiled. split_and!.
        -- unfold truthy. destruct (systemRole cfg) as [sr|]; [|done].
           by destruct (decide (sr = "")).
        -- by apply (compilerMessages_shape tpl).
        -- unfold truthy in Htpl. intros [Hnone|Hempty].
           ++ by rewrite Hnone in Htpl.
           ++ by rewrite Hempty in Htpl.
    + split; [|done]. split; [|done]. intros _. exists tpl. split; [done|].
      unfold compilerMessages in Hcompiled. by destruct (template tpl).
  - split.
    + split; [done|]. by intros (tpl & ? & _).
    + intros posted [= <-]. exists (getSlicedMessagesWithConfig messages cfg).
      split_and!.
      * unfold truthy. destruct (systemRole cfg) as [sr|]; [|done].
        by destruct (decide (sr = "")).
      * apply same_but_user_content_refl.
      * done.
Qed.

(** ** Stopping and the requests in flight *)

(** X5: the request a generation issues carries the signal of the
    controller the store holds from then on, so that stopping right away
    aborts exactly that request: its signal fires, and no other controller
    receives an [abort()].  A generation that is rejected before its
    request issues none. *)
Theorem stop_cancels_latest_request messages target s :
  (forall posted, preprocess (config s) messages = Some posted ->
   exists s1 run call,
     generateMessage messages target s = (s1, AwaitSSE run) /\
     last (fetched s1) = Some call /\
     fetch_signal call = run_controller run /\
     abortController s1 = Some (fetch_signal call) /\
     signal_aborted (fetch_signal call) s1 = false /\
     signal_aborted (fetch_signal call) (stopGenerateMessage s1) = true /\
     (forall h, h <> fetch_signal call ->
        abort_calls h (stopGenerateMessage s1) = abort_calls h s)) /\
  (preprocess (config s) messages = None ->
   exists s1,
     generateMessage messages target s = (s1, Rejected) /\
     fetched s1 = fetched s).
Proof.
  split; [|intros Hposted; rewrite (generateMessage_rejected _ _ _ Hposted);
           by eexists].
  intros posted Hposted. rewrite (generateMessage_eq _ _ _ _ Hposted).
  match goal with |- context [(?st, AwaitSSE ?r) = _] =>
    set (run := r); set (s1 := st) end.
  exists s1, run, (mkFetchCall (postMessages run) (model (config s)) (run_controller run)).
  split; [reflexivity|]. split; [apply last_snoc|]. split; [done|]. split; [done|].
  assert (controllers (stopGenerateMessage s1)
          = alter S (length (controllers s)) (controllers s ++ [0])) as Hheap.
  { by rewrite stopGenerateMessage_controllers. }
  unfold signal_aborted, abort_calls. rewrite Hheap. simpl.
  split_and!.
  - rewrite lookup_app_r by lia. by rewrite Nat.sub_diag.
  - rewrite list_lookup_alter_eq, lookup_app_r by lia. by rewrite Nat.sub_diag.
  - intros h Hother. rewrite list_lookup_alter_ne by done.
    destruct (decide (h < length (controllers s))) as [Hlt|Hge].
    + by rewrite lookup_app_l by lia.
    + rewrite !lookup_ge_None_2; [done|lia|rewrite length_app; simpl; lia].
Qed.

Lemma deliver_frames_session frames run s :
  abortController (fst (deliver (map Frame frames) run s)) = abortController s /\
  chatLoadingId (fst (deliver (map Frame frames) run s)) = chatLoadingId s /\
  controllers (fst (deliver (map Frame frames) run s)) = controllers s.
Proof.
  revert run s. induction frames as [|text frames IH]; intros run s; simpl; [done|].
  unfold onMessageHandle. destruct (signal_aborted _ s).
  - apply IH.
  - match goal with |- context [deliver _ ?r ?st] =>
      destruct (IH r st) as (-> & -> & ->) end.
    done.
Qed.

(** X6: when a generation ends, with or without a failure, the session is
    cleared whichever generation it belonged to; a stop that follows aborts
    no controller at all.  So a newer generation that was started meanwhile
    and still streams can no longer be stopped. *)
Theorem ended_generation_disarms_stop frames outcome run s :
  let s' := fst (consume (mkStream (map Frame frames) outcome) run s) in
  abortController s' = None /\
  chatLoadingId s' = None /\
  controllers (stopGenerateMessage s') = controllers s /\
  (forall h, signal_aborted h (stopGenerateMessage s') = signal_aborted h s).
Proof.
  intros s'. subst s'. unfold consume, fetchSSE. cbn [events failure].
  destruct (deliver_frames_session frames run s) as (Hctl & Hid & Hheap).
  destruct (deliver (map Frame frames) run s) as [s1 run1]. simpl in *.
  assert (forall st, abortController st = None ->
            controllers (stopGenerateMessage st) = controllers st) as Hidle.
  { intros st Hst. by rewrite stopGenerateMessage_controllers, Hst. }
  destruct outcome as [e|]; simpl.
  - split; [done|]. split; [done|].
    rewrite Hidle by done. simpl. split; [done|].
    intros h. unfold signal_aborted. rewrite Hidle by done. simpl. by rewrite Hheap.
  - split; [done|]. split; [done|].
    rewrite Hidle by done. simpl. split; [done|].
    intros h. unfold signal_aborted. rewrite Hidle by done. simpl. by rewrite Hheap.
Qed.

(** ** Every interleaving

    The actions change the store through five primitive steps: a command
    is dispatched, a stop is requested, a generation starts, a generation
    ends, an id is drawn.  Generations that overlap, and user actions that
    fall between two frames, are sequences of such steps. *)

Inductive transition : ChatStore -> ChatStore -> Prop :=
| transition_dispatch payload s : transition s (dispatchMessage payload s)
| transition_stop s : transition s (stopGenerateMessage s)
| transition_start messages target s :
    transition s (fst (generateMessage messages target s))
| transition_end s : transition s (toggleChatLoading_off s)
| transition_nanoid s : transition s (fst (nanoid s)).

(** No controller has received more than one [abort()], and the stored one
    has received none. *)
Definition aborts_sound (s : ChatStore) : Prop :=
  (forall h n, controllers s !! h = Some n -> n <= 1) /\
  (forall h, abortController s = Some h -> controllers s !! h = Some 0).

Lemma onMessageHandle_reaches text run s :
  rtc transition s (fst (onMessageHandle text run s)).
Proof.
  unfold onMessageHandle. destruct (signal_aborted _ s); simpl; [done|].
  apply rtc_once, transition_dispatch.
Qed.

Lemma perform_reaches a s : rtc transition s (perform a s).
Proof. destruct a; apply rtc_once; constructor. Qed.

Lemma deliver_reaches evs run s : rtc transition s (fst (deliver evs run s)).
Proof.
  revert run s. induction evs as [|[text|a] evs IH]; intros run s; simpl; [done| |].
  - pose proof (onMessageHandle_reaches text run s) as Hstep.
    destruct (onMessageHandle text run s) as [s' run']. simpl in Hstep.
    etrans; [exact Hstep | apply IH].
  - etrans; [apply perform_reaches | apply IH].
Qed.

Lemma consume_reaches stream run s : rtc transition s (fst (consume stream run s)).
Proof.
  unfold consume, fetchSSE.
  pose proof (deliver_reaches (events stream) run s) as Hdeliver.
  destruct (deliver (events stream) run s) as [s1 run1]. simpl in Hdeliver.
  destruct (failure stream) as [e|]; simpl.
  - etrans; [exact Hdeliver|]. eapply rtc_l; [apply transition_dispatch|].
    apply rtc_once, transition_end.
  - etrans; [exact Hdeliver|]. apply rtc_once, transition_end.
Qed.

Lemma realFetchAIResponse_reaches messages parent s :
  rtc transition s (fst (realFetchAIResponse messages parent s)).
Proof.
  unfold realFetchAIResponse, getMessageId.
  destruct (genMessageId s); simpl; [done|]. apply rtc_once, transition_nanoid.
Qed.

Lemma sendMessage_reaches text s : rtc transition s (fst (sendMessage text s)).
Proof.
  unfold sendMessage. destruct (decide (text = "")); [done|]. simpl.
  eapply rtc_l; [apply transition_nanoid|].
  eapply rtc_l; [apply transition_dispatch|].
  apply realFetchAIResponse_reaches.
Qed.

Lemma resendMessage_reaches mid s : rtc transition s (fst (resendMessage mid s)).
Proof.
  unfold resendMessage. destruct (findIndex mid _) as [[i m]|]; [|done].
  destruct (decide _); [done|]. destruct (last _); [|done].
  apply realFetchAIResponse_reaches.
Qed.

Lemma onActionsClick_reaches key mid err s :
  rtc transition s (fst (onActionsClick key mid err s)).
Proof.
  destruct key; simpl; [apply rtc_once, transition_dispatch|].
  pose proof (resendMessage_reaches mid s) as Hresend.
  destruct (resendMessage mid s) as [s1 t]. simpl in *.
  destruct err; [|done].
  etrans; [exact Hresend | apply rtc_once, transition_dispatch].
Qed.

Lemma resume_reaches t s : rtc transition s (fst (resume t s)).
Proof.
  destruct t as [|messages parent mid|run|]; [done| |done..].
  unfold resume, realFetchAIResponse_resume.
  eapply rtc_l; [apply transition_dispatch|].
  eapply rtc_l; [apply transition_dispatch|].
  apply rtc_once, transition_start.
Qed.

Lemma settle_reaches stream t s : rtc transition s (settle stream t s).
Proof.
  unfold settle. pose proof (resume_reaches t s) as Hresume.
  destruct (resume t s) as [s1 [| |run|]]; simpl in *; [done|done| |done].
  etrans; [exact Hresume | apply consume_reaches].
Qed.

Lemma session_consistent_step s s' :
  transition s s' -> session_consistent s -> session_consistent s'.
Proof.
  intros [payload st|st|messages target st|st|st] Hs.
  - by apply session_consistent_dispatch.
  - by apply session_consistent_stop.
  - apply session_consistent_generateMessage.
  - done.
  - done.
Qed.

(** X7: [abortController] and [chatLoadingId] are set and cleared
    together, and a stored handle is always an allocated controller: this
    holds after any sequence of dispatches, stops, generation starts,
    generation ends and id draws, hence after any interleaving of the
    actions. *)
Theorem session_fields_invariant s s' :
  session_consistent s -> rtc transition s s' -> session_consistent s'.
Proof.
  intros Hs Hreach. induction Hreach as [|s1 s2 s3 Hstep _ IH]; [done|].
  apply IH. by apply (session_consistent_step s1).
Qed.

Lemma aborts_sound_step s s' :
  transition s s' -> aborts_sound s -> aborts_sound s'.
Proof.
  intros [payload st|st|messages target st|st|st] [Hmost Hlive].
  - by split.
  - split.
    + intros h n. rewrite stopGenerateMessage_controllers.
      destruct (abortController st) as [k|] eqn:Hk; [|apply Hmost].
      destruct (decide (k = h)) as [->|Hne].
      * rewrite list_lookup_alter_eq, (Hlive h eq_refl). simpl. intros [= <-]. lia.
      * rewrite list_lookup_alter_ne by done. apply Hmost.
    + intros h. unfold stopGenerateMessage.
      destruct (abortController st) as [k|] eqn:Hk; [done|].
      destruct (last (chats st)) as [m|]; [destruct (decide _)|]; simpl;
        rewrite Hk; done.
  - destruct (generateMessage_store messages target st)
      as (_ & Hctl & _ & _ & Hheap & _).
    unfold aborts_sound. rewrite Hctl, Hheap. split.
    + intros h n Hn. apply lookup_app_Some in Hn as [Hn|[_ Hn]].
      * by apply (Hmost h).
      * destruct (h - length (controllers st)); simpl in Hn; [|done].
        injection Hn as <-. lia.
    + intros h [= <-]. rewrite lookup_app_r by lia. by rewrite Nat.sub_diag.
  - by split.
  - by split.
Qed.

(** X8: no controller ever receives more than one [abort()] call, and the
    controller the store holds has received none, after any sequence of
    dispatches, stops, generation starts, generation ends and id draws. *)
Theorem abort_at_most_once s s' :
  aborts_sound s -> rtc transition s s' -> aborts_sound s'.
Proof.
  intros Hs Hreach. induction Hreach as [|s1 s2 s3 Hstep _ IH]; [done|].
  apply IH. by apply (aborts_sound_step s1).
Qed.

(** ** What a stream leaves in a run *)

Lemma joined_cons text frames : joined (text :: frames) = text +:+ joined frames.
Proof. reflexivity. Qed.

(** X9: the [output] of a run is the concatenation of every frame it has
    received, in order; frames whose dispatch was suppressed after an abort
    are accumulated like the others, and user actions in between do not
    affect it. *)
Theorem output_is_all_frames evs run s :
  output (snd (deliver evs run s)) = output run +:+ joined (frames_of evs).
Proof.
  revert run s. induction evs as [|[text|a] evs IH]; intros run s.
  - simpl. by rewrite string_app_nil_r.
  - change (frames_of (Frame text :: evs)) with (text :: frames_of evs).
    rewrite joined_cons. cbn [deliver].
    destruct (onMessageHandle_run text run s) as (_ & _ & Hout).
    destruct (onMessageHandle text run s) as [s' run']. simpl in Hout.
    rewrite IH, Hout. apply string_app_assoc.
  - change (frames_of (Interleaved a :: evs)) with (frames_of evs).
    cbn [deliver]. apply IH.
Qed.

Lemma length_accumulated acc frames : length (accumulated acc frames) = length frames.
Proof.
  revert acc. induction frames as [|text frames IH]; intros acc; simpl; [done|].
  by rewrite IH.
Qed.

Lemma accumulated_lookup acc frames k :
  k < length frames ->
  accumulated acc frames !! k = Some (acc +:+ joined (take (S k) frames)).
Proof.
  revert acc k. induction frames as [|text frames IH]; intros acc k Hk;
    [simpl in Hk; lia|].
  destruct k as [|k].
  - change (Some (acc +:+ text) = Some (acc +:+ joined (text :: take 0 frames))).
    rewrite take_0, joined_cons. unfold joined. simpl.
    by rewrite string_app_nil_r.
  - change (accumulated (acc +:+ text) frames !! k
            = Some (acc +:+ joined (text :: take (S k) frames))).
    simpl in Hk. rewrite IH by lia. by rewrite joined_cons, string_app_assoc.
Qed.

(** Frames delivered while the signal has not fired and nothing
    interleaves: each is dispatched, and the flag records whether one of the
    accumulated texts was a function call. *)
Lemma deliver_frames_live frames run s :
  signal_aborted (run_controller run) s = false ->
  sent (snd (deliver (map Frame frames) run s)) =
    sent run ++ accumulated (output run) frames /\
  dispatched (fst (deliver (map Frame frames) run s)) =
    dispatched s ++
      map (content_update (assistantId run)) (accumulated (output run) frames) /\
  isFunctionCall (snd (deliver (map Frame frames) run s)) =
    isFunctionCall run || existsb isFunctionMessage (accumulated (output run) frames).
Proof.
  revert run s. induction frames as [|text frames IH]; intros run s Hlive; simpl.
  - by rewrite !app_nil_r, orb_false_r.
  - unfold onMessageHandle. rewrite Hlive.
    match goal with |- context [deliver _ ?r ?st] =>
      destruct (IH r st Hlive) as (-> & -> & ->) end.
    simpl. rewrite <- !app_assoc. split_and!; [done..|].
    by destruct (isFunctionMessage (output run +:+ text)), (isFunctionCall run).
Qed.

(** X10: while the signal has not fired and nothing interleaves, a
    generation dispatches exactly one content update per frame, in order,
    and the value of the [k]-th one is the concatenation of the first [k]
    frames.  A generation that is rejected before its stream dispatches
    nothing. *)
Theorem one_dispatch_per_frame messages target frames s :
  (forall posted, preprocess (config s) messages = Some posted ->
   exists s1 run,
     generateMessage messages target s = (s1, AwaitSSE run) /\
     let sent_values := sent (snd (deliver (map Frame frames) run s1)) in
     dispatched (fst (deliver (map Frame frames) run s1)) =
       dispatched s ++ map (content_update target) sent_values /\
     length sent_values = length frames /\
     forall k, k < length frames ->
       sent_values !! k = Some (joined (take (S k) frames))) /\
  (preprocess (config s) messages = None ->
   exists s1,
     generateMessage messages target s = (s1, Rejected) /\
     dispatched s1 = dispatched s).
Proof.
  split; [|intros Hposted; rewrite (generateMessage_rejected _ _ _ Hposted);
           by eexists].
  intros posted Hposted. rewrite (generateMessage_eq _ _ _ _ Hposted).
  match goal with |- context [(?st, AwaitSSE ?r) = _] =>
    set (run := r); set (s1 := st) end.
  exists s1, run. split; [reflexivity|].
  assert (signal_aborted (run_controller run) s1 = false) as Hlive.
  { unfold signal_aborted. subst run s1. simpl.
    rewrite lookup_app_r by lia. by rewrite Nat.sub_diag. }
  destruct (deliver_frames_live frames run s1 Hlive) as (Hsent & Hlog & _).
  simpl. rewrite Hsent, Hlog. simpl. split_and!.
  - done.
  - apply length_accumulated.
  - intros k Hk. by rewrite accumulated_lookup.
Qed.

(** X11: the [isFunctionCall] flag a generation returns is sticky: with
    the signal not fired and nothing interleaved it is true exactly when
    the text accumulated after some frame was recognised as a function
    call, whatever was accumulated later and whether or not the stream
    ended in a failure.  A generation that is rejected before its stream
    returns no flag. *)
Theorem isFunctionCall_sticky messages target frames outcome s :
  (forall posted, preprocess (config s) messages = Some posted ->
   exists s1 run,
     generateMessage messages target s = (s1, AwaitSSE run) /\
     (snd (consume (mkStream (map Frame frames) outcome) run s1) = true <->
      exists k, k < length frames /\
        isFunctionMessage (joined (take (S k) frames)) = true)) /\
  (preprocess (config s) messages = None ->
   exists s1, generateMessage messages target s = (s1, Rejected)).
Proof.
  split; [|intros Hposted; rewrite (generateMessage_rejected _ _ _ Hposted);
           by eexists].
  intros posted Hposted. rewrite (generateMessage_eq _ _ _ _ Hposted).
  match goal with |- context [(?st, AwaitSSE ?r) = _] =>
    set (run := r); set (s1 := st) end.
  exists s1, run. split; [reflexivity|].
  assert (signal_aborted (run_controller run) s1 = false) as Hlive.
  { unfold signal_aborted. subst run s1. simpl.
    rewrite lookup_app_r by lia. by rewrite Nat.sub_diag. }
  destruct (deliver_frames_live frames run s1 Hlive) as (_ & _ & Hflag).
  unfold consume, fetchSSE. cbn [events failure].
  destruct (deliver (map Frame frames) run s1) as [s2 run2]. simpl in Hflag.
  assert (snd (let '(s3, run3) :=
                 match outcome with
                 | Some e => (onErrorHandle e run2 s2, run2)
                 | None => (s2, run2)
                 end in generateMessage_resume run3 s3) = isFunctionCall run2) as ->.
  { by destruct outcome. }
  rewrite Hflag. simpl. rewrite existsb_exists. split.
  - intros (v & Hin & Hv). apply list_elem_of_In in Hin.
    apply list_elem_of_lookup in Hin as [k Hk].
    assert (k < length frames) as Hlt.
    { apply lookup_lt_Some in Hk. by rewrite length_accumulated in Hk. }
    rewrite accumulated_lookup in Hk by done. injection Hk as <-.
    by exists k.
  - intros (k & Hlt & Hv). exists (joined (take (S k) frames)). split; [|done].
    apply list_elem_of_In, list_elem_of_lookup. exists k.
    by rewrite accumulated_lookup.
Qed.

(** ** Stopping in the middle of a stream *)

Lemma deliver_frames_aborted frames run s :
  signal_aborted (run_controller run) s = true ->
  fst (deliver (map Frame frames) run s) = s /\
  isFunctionCall (snd (deliver (map Frame frames) run s)) = isFunctionCall run /\
  assistantId (snd (deliver (map Frame frames) run s)) = assistantId run.
Proof.
  revert run. induction frames as [|text frames IH]; intros run Hfired; simpl; [done|].
  rewrite (onMessageHandle_aborted text run s Hfired).
  by apply (IH (mkGenRun _ _ _ _ _ _)).
Qed.

(** X12: a stop requested while the reply already holds text (the last
    message is not the sentinel) dispatches nothing and fires the signal;
    whatever frames arrive afterwards, the conversation stays as it was at
    the stop, the flag returned is the one reached before the stop, and the
    session is cleared.  The error handler is not guarded by the signal: a
    failure reported after the stop is still dispatched to the message. *)
Theorem stop_keeps_partial_content frames outcome run s :
  session_consistent s ->
  abortController s = Some (run_controller run) ->
  (forall lastChat, last (chats s) = Some lastChat -> content lastChat <> LOADING_FLAT) ->
  let final := consume (mkStream (Interleaved Stop :: map Frame frames) outcome) run s in
  dispatched (fst final) =
    dispatched s ++ match outcome with
                    | Some e => [UpdateMessage (Some (assistantId run)) (SetError e)]
                    | None => []
                    end /\
  (outcome = None -> chats (fst final) = chats s) /\
  snd final = isFunctionCall run /\
  signal_aborted (run_controller run) (fst final) = true /\
  abortController (fst final) = None /\
  chatLoadingId (fst final) = None.
Proof.
  intros Hs Hactive Hlast final. subst final.
  unfold session_consistent in Hs. rewrite Hactive in Hs. destruct Hs as [Hh _].
  assert (stopGenerateMessage s = toggleChatLoading_off (abort (run_controller run) s))
    as Hstop.
  { unfold stopGenerateMessage. rewrite Hactive.
    destruct (last (chats s)) as [m|] eqn:Hm; [|done].
    by rewrite decide_False by (by apply Hlast). }
  assert (signal_aborted (run_controller run) (stopGenerateMessage s) = true) as Hfired.
  { rewrite Hstop. unfold signal_aborted. simpl.
    destruct (lookup_lt_is_Some_2 (controllers s) _ Hh) as [n Hn].
    by rewrite list_lookup_alter_eq, Hn. }
  unfold consume, fetchSSE. cbn [events failure deliver perform].
  destruct (deliver_frames_aborted frames run _ Hfired) as (Hstore & Hflag & Hid).
  destruct (deliver (map Frame frames) run (stopGenerateMessage s)) as [s2 run2].
  simpl in Hstore, Hflag, Hid. subst s2.
  destruct outcome as [e|]; simpl; rewrite Hstop in *; simpl.
  - rewrite Hid. by split_and!.
  - rewrite app_nil_r. by split_and!.
Qed.

(** X13: requesting a stop twice is the same as requesting it once, as far
    as the conversation, the session and the controllers go: the second
    request finds no session and aborts nothing. *)
Theorem stopGenerateMessage_idempotent s :
  session_consistent s ->
  chats (stopGenerateMessage (stopGenerateMessage s)) = chats (stopGenerateMessage s) /\
  controllers (stopGenerateMessage (stopGenerateMessage s)) =
    controllers (stopGenerateMessage s) /\
  abortController (stopGenerateMessage (stopGenerateMessage s)) = None /\
  chatLoadingId (stopGenerateMessage (stopGenerateMessage s)) = None.
Proof.
  intros Hs.
  assert (abortController (stopGenerateMessage s) = None /\
          chatLoadingId (stopGenerateMessage s) = None) as [Hctl Hid].
  { unfold stopGenerateMessage, session_consistent in *.
    destruct (abortController s) eqn:Hactive; [done|].
    destruct (last (chats s)) as [m|]; [destruct (decide _)|]; simpl; by rewrite Hactive. }
  set (once := stopGenerateMessage s) in *.
  unfold stopGenerateMessage. rewrite Hctl, Hid.
  destruct (last (chats once)) as [m|]; [|done].
  by destruct (decide (content m = LOADING_FLAT)).
Qed.

(** ** A target that is gone *)

Lemma deliver_frames_missing_target frames run s :
  findIndex (assistantId run) (chats s) = None ->
  chats (fst (deliver (map Frame frames) run s)) = chats s /\
  abortController (fst (deliver (map Frame frames) run s)) = abortController s /\
  chatLoadingId (fst (deliver (map Frame frames) run s)) = chatLoadingId s /\
  assistantId (snd (deliver (map Frame frames) run s)) = assistantId run.
Proof.
  revert run s. induction frames as [|text frames IH]; intros run s Hgone; simpl; [done|].
  unfold onMessageHandle. destruct (signal_aborted _ s).
  - by apply (IH (mkGenRun _ _ _ _ _ _)).
  - match goal with |- context [deliver _ ?r ?st] =>
      assert (chats st = chats s) as Hsame
        by (simpl; unfold on_message; by rewrite Hgone);
      destruct (IH r st) as (-> & -> & -> & ->); [by rewrite Hsame|]
    end.
    by rewrite Hsame.
Qed.

Lemma fetchSSE_missing_target frames outcome run s :
  findIndex (assistantId run) (chats s) = None ->
  chats (fst (fetchSSE (mkStream (map Frame frames) outcome) run s)) = chats s /\
  abortController (fst (fetchSSE (mkStream (map Frame frames) outcome) run s))
    = abortController s /\
  chatLoadingId (fst (fetchSSE (mkStream (map Frame frames) outcome) run s))
    = chatLoadingId s.
Proof.
  intros Hgone. unfold fetchSSE. cbn [events failure].
  destruct (deliver_frames_missing_target frames run s Hgone) as (Hchats & Hctl & Hid & Hrun).
  destruct (deliver (map Frame frames) run s) as [s1 run1]. simpl in *.
  destruct outcome as [e|]; simpl; [|done].
  rewrite Hrun. unfold on_message. by rewrite Hchats, Hgone.
Qed.

(** X14: deleting the reply that is being generated neither stops nor ends
    the generation (the session fields stay, the loading id now names no
    message), and the frames and the failure that follow change nothing in
    the conversation: the reply stays deleted. *)
Theorem deleted_reply_stays_deleted frames outcome run s :
  NoDup (map id (chats s)) ->
  let deleted := deleteMessage (assistantId run) s in
  let after := fst (fetchSSE (mkStream (map Frame frames) outcome) run deleted) in
  chats deleted = filter (fun m => id m <> assistantId run) (chats s) /\
  chats after = chats deleted /\
  findIndex (assistantId run) (chats after) = None /\
  abortController after = abortController s /\
  chatLoadingId after = chatLoadingId s.
Proof.
  intros Hnodup deleted after.
  assert (chats deleted = filter (fun m => id m <> assistantId run) (chats s)) as Hdel.
  { by apply deleteMessage_chats. }
  assert (findIndex (assistantId run) (chats deleted) = None) as Hgone.
  { rewrite Hdel. unfold findIndex. apply list_find_None, Forall_forall.
    intros m Hm. apply list_elem_of_filter in Hm as [Hid _]. exact Hid. }
  destruct (fetchSSE_missing_target frames outcome run deleted Hgone)
    as (Hchats & Hctl & Hid).
  subst after. rewrite Hchats, Hctl, Hid. by split_and!.
Qed.

(** X15: [clearMessage] empties the conversation but neither stops nor
    ends a generation under way: no controller is aborted and the session
    fields stay.  The frames and the failure that follow find no message to
    write to, so the conversation stays empty. *)
Theorem cleared_conversation_stays_empty frames outcome run s :
  let after := fst (fetchSSE (mkStream (map Frame frames) outcome) run (clearMessage s)) in
  chats (clearMessage s) = [] /\
  controllers (clearMessage s) = controllers s /\
  chats after = [] /\
  abortController after = abortController s /\
  chatLoadingId after = chatLoadingId s.
Proof.
  intros after.
  destruct (fetchSSE_missing_target frames outcome run (clearMessage s) eq_refl)
    as (Hchats & Hctl & Hid).
  subst after. rewrite Hchats, Hctl, Hid. by split_and!.
Qed.

(** X16: an edit of the reply that is being generated is lost at the next
    frame: the frame writes the accumulated output over the edited text. *)
Theorem edit_overwritten_by_next_frame text edit run s k m :
  signal_aborted (run_controller run) s = false ->
  findIndex (assistantId run) (chats s) = Some (k, m) ->
  let edited := onMessageChange (assistantId run) edit s in
  let after := fst (onMessageHandle text run edited) in
  exists m_edited m',
    chats edited !! k = Some m_edited /\ content m_edited = edit /\
    chats after !! k = Some m' /\ content m' = output run +:+ text /\
    chats after = <[k := m']> (chats s).
Proof.
  intros Hlive Hfind edited after.
  destruct (findIndex_lookup _ _ _ _ Hfind) as [Hk Hid].
  assert (k < length (chats s)) as Hlt by (by eapply lookup_lt_Some).
  set (m1 := apply_update (SetContent edit) m).
  assert (chats edited = <[k := m1]> (chats s)) as Hedited.
  { subst edited. unfold onMessageChange. simpl.
    by rewrite (on_message_found _ _ _ _ _ Hfind). }
  assert (findIndex (assistantId run) (chats edited) = Some (k, m1)) as Hfind1.
  { rewrite Hedited. by apply (findIndex_insert _ _ _ m). }
  assert (chats edited !! k = Some m1) as Hk1.
  { rewrite Hedited. by apply list_lookup_insert_eq. }
  exists m1, (apply_update (SetContent (output run +:+ text)) m1).
  subst after. unfold onMessageHandle.
  assert (signal_aborted (run_controller run) edited = false) as -> by exact Hlive.
  simpl. rewrite (on_message_found _ _ _ _ _ Hfind1), Hedited.
  rewrite list_insert_insert_eq. split_and!; try done.
  all: first [exact Hk1 | by apply list_lookup_insert_eq].
Qed.

(** ** Sending into any conversation *)

Lemma on_message_length i f l : length (on_message i f l) = length l.
Proof.
  unfold on_message. destruct (findIndex i l) as [[k m]|]; [|done].
  apply length_insert.
Qed.

(** X17: the context [sendMessage] hands to the model is the conversation
    as it was plus the new user message, preprocessed; the assistant
    placeholder, added afterwards, is never part of it.  No request is made
    before the continuation runs; exactly one is made then, for the
    configured model, when preprocessing yields the messages to post, and
    none when it fails, the continuation being rejected.  Either way the
    conversation has grown by two. *)
Theorem sendMessage_context text s :
  text <> "" ->
  let u := mkChatMessage (nanoid_value (nanoid_calls s)) user text None ∅ None in
  exists s1 t s2 t2,
    sendMessage text s = (s1, t) /\
    fetched s1 = fetched s /\
    resume t s1 = (s2, t2) /\
    length (chats s2) = length (chats s) + 2 /\
    (forall posted, preprocess (config s) (chats s ++ [u]) = Some posted ->
       exists run call,
         t2 = AwaitSSE run /\
         postMessages run = posted /\
         fetched s2 = fetched s ++ [call] /\
         fetch_messages call = posted /\
         fetch_model call = model (config s)) /\
    (preprocess (config s) (chats s ++ [u]) = None ->
       t2 = Rejected /\ fetched s2 = fetched s).
Proof.
  intros Htext u. unfold sendMessage. rewrite decide_False by done.
  unfold realFetchAIResponse, getMessageId, currentChats, nanoid. simpl.
  destruct (genMessageId s) as [gen|]; simpl.
  all: match goal with |- context [(?st, AwaitMessageId ?ms ?p ?n)] =>
         destruct (realFetchAIResponse_resume_effect ms p n st)
           as (_ & Hids & _ & Hok & Hno);
         exists st, (AwaitMessageId ms p n),
           (fst (realFetchAIResponse_resume ms p n st)),
           (snd (realFetchAIResponse_resume ms p n st))
       end.
  all: split; [reflexivity|]; split; [reflexivity|].
  all: split; [unfold resume; by destruct (realFetchAIResponse_resume _ _ _ _)|].
  all: split;
    [apply (f_equal length) in Hids; rewrite length_app, !length_map in Hids;
     rewrite Hids; simpl; rewrite !length_app; simpl; lia|].
  all: split.
  all: try (intros posted Hposted;
            destruct (Hok posted Hposted)
              as (run & call & Hrun & _ & Hpost & Hf & Hm & Hmodel);
            exists run, call; by split_and!).
  all: intros Hposted; by apply Hno.
Qed.

(** Every id in the conversation was handed out by the built-in generator,
    and no two messages share one. *)
Definition ids_drawn (s : ChatStore) : Prop :=
  NoDup (map id (chats s)) /\
  forall i, i ∈ map id (chats s) -> exists j, j < nanoid_calls s /\ i = nanoid_value j.

Lemma ids_drawn_placeholder messages parent s :
  Inj (=) (=) nanoid_value ->
  genMessageId s = None ->
  ids_drawn s ->
  ids_drawn (fst (resume (snd (realFetchAIResponse messages parent s))
                         (fst (realFetchAIResponse messages parent s)))).
Proof.
  intros Hinj Hbuiltin [Hnodup Hdrawn].
  unfold realFetchAIResponse, getMessageId. rewrite Hbuiltin.
  unfold nanoid. cbn [fst snd resume].
  destruct (realFetchAIResponse_resume_effect messages parent
              (nanoid_value (nanoid_calls s))
              (mkChatStore (chats s) (abortController s) (chatLoadingId s) (config s)
                 (genMessageId s) (controllers s) (S (nanoid_calls s))
                 (dispatched s) (fetched s)))
    as (_ & Hids & _).
  unfold ids_drawn. rewrite Hids.
  assert (nanoid_calls (fst (realFetchAIResponse_resume messages parent
            (nanoid_value (nanoid_calls s))
            (mkChatStore (chats s) (abortController s) (chatLoadingId s) (config s)
               (genMessageId s) (controllers s) (S (nanoid_calls s))
               (dispatched s) (fetched s)))) = S (nanoid_calls s)) as ->.
  { unfold realFetchAIResponse_resume.
    match goal with |- context [generateMessage ?ms ?n ?st] =>
      destruct (generateMessage_store ms n st) as (_ & _ & _ & _ & _ & -> & _) end.
    done. }
  simpl. split.
  - apply NoDup_app. split_and!; [done| |apply NoDup_singleton].
    intros i Hi Hnew. apply list_elem_of_singleton in Hnew. subst i.
    destruct (Hdrawn _ Hi) as (j & Hj & Heq). apply Hinj in Heq. lia.
  - intros i Hi. apply elem_of_app in Hi as [Hi|Hi].
    + destruct (Hdrawn _ Hi) as (j & Hj & Heq). exists j. split; [lia|done].
    + apply list_elem_of_singleton in Hi. exists (nanoid_calls s). split; [lia|done].
Qed.

(** X18: when ids come from the built-in generator and it never repeats
    itself, sending a message and resending one keep the message ids
    unique: the user message and the placeholder each get an id that no
    message of the conversation carries. *)
Theorem ids_stay_unique s :
  Inj (=) (=) nanoid_value ->
  genMessageId s = None ->
  ids_drawn s ->
  (forall text,
     ids_drawn (fst (resume (snd (sendMessage text s)) (fst (sendMessage text s))))) /\
  (forall messageId,
     ids_drawn (fst (resume (snd (resendMessage messageId s))
                            (fst (resendMessage messageId s))))).
Proof.
  intros Hinj Hbuiltin Hs. split.
  - intros text. unfold sendMessage. destruct (decide (text = "")); [done|].
    unfold nanoid, currentChats. cbn [fst snd].
    match goal with |- context [realFetchAIResponse ?ms ?p ?st] =>
      apply (ids_drawn_placeholder ms p st Hinj); [done|] end.
    destruct Hs as [Hnodup Hdrawn]. unfold ids_drawn. simpl. rewrite map_app. simpl.
    split.
    + apply NoDup_app. split_and!; [done| |apply NoDup_singleton].
      intros i Hi Hnew. apply list_elem_of_singleton in Hnew. subst i.
      destruct (Hdrawn _ Hi) as (j & Hj & Heq). apply Hinj in Heq. lia.
    + intros i Hi. apply elem_of_app in Hi as [Hi|Hi].
      * destruct (Hdrawn _ Hi) as (j & Hj & Heq). exists j. split; [lia|done].
      * apply list_elem_of_singleton in Hi. exists (nanoid_calls s). split; [lia|done].
  - intros messageId. unfold resendMessage, currentChats.
    destruct (findIndex messageId (chats s)) as [[i m]|]; [|done].
    destruct (decide _); [done|]. destruct (last _) as [latest|]; [|done].
    by apply ids_drawn_placeholder.
Qed.

(** ** A stream that ends well *)

(** X19: when the stream ends without a failure, the target message holds
    the concatenation of the frames (its previous content when there was
    none), its other fields and all other messages are as before, and the
    session is cleared.  A generation that is rejected before its stream
    leaves the conversation as it was and the session set. *)
Theorem stream_success_recorded messages target frames s k m :
  findIndex target (chats s) = Some (k, m) ->
  (forall posted, preprocess (config s) messages = Some posted ->
   exists s1 run m',
     generateMessage messages target s = (s1, AwaitSSE run) /\
     let final := fst (consume (mkStream (map Frame frames) None) run s1) in
     chats final = <[k := m']> (chats s) /\
     content m' = match frames with [] => content m | _ => joined frames end /\
     (id m' = id m /\ role m' = role m /\ parentId m' = parentId m /\
      extra m' = extra m /\ error m' = error m) /\
     abortController final = None /\
     chatLoadingId final = None) /\
  (preprocess (config s) messages = None ->
   exists s1,
     generateMessage messages target s = (s1, Rejected) /\
     chats s1 = chats s /\
     chatLoadingId s1 = Some target).
Proof.
  intros Hfind.
  split; [|intros Hposted; rewrite (generateMessage_rejected _ _ _ Hposted);
           by eexists].
  intros posted Hposted. rewrite (generateMessage_eq _ _ _ _ Hposted).
  match goal with |- context [(?st, AwaitSSE ?r) = _] =>
    set (run := r); set (s1 := st) end.
  assert (signal_aborted (run_controller run) s1 = false) as Hlive.
  { unfold signal_aborted. subst run s1. simpl.
    rewrite lookup_app_r by lia. by rewrite Nat.sub_diag. }
  destruct (deliver_frames_content frames run s1 k m Hlive Hfind)
    as (m' & Hchats & _ & Hcontent & Hsame & _).
  exists s1, run, m'. split; [reflexivity|].
  intros final. subst final. unfold consume, fetchSSE. cbn [events failure].
  destruct (deliver (map Frame frames) run s1) as [s2 run2]. simpl in *.
  destruct Hsame as (? & ? & ? & ? & ?). by split_and!.
Qed.

(** X20: when the id of the reply is not in use, the continuation of
    [realFetchAIResponse] leaves the conversation as it was, followed by
    one new assistant message: sentinel content, the given parent, no
    error, and the configured model recorded under [fromModel]. *)
Theorem placeholder_records_model messages userMessageId mid s :
  findIndex mid (chats s) = None ->
  chats (fst (realFetchAIResponse_resume messages userMessageId mid s)) =
    chats s ++ [mkChatMessage mid assistant LOADING_FLAT (Some userMessageId)
                  {["fromModel" := model (config s)]} None].
Proof.
  intros Hfresh. unfold realFetchAIResponse_resume.
  match goal with |- context [generateMessage ?ms ?n ?st] =>
    destruct (generateMessage_store ms n st) as (-> & _) end.
  simpl.
  set (placeholder := mkChatMessage mid assistant LOADING_FLAT (Some userMessageId) ∅ None).
  assert (findIndex (id placeholder) (chats s) = None) as Hfresh' by exact Hfresh.
  rewrite (on_message_found mid _ _ _ _ (findIndex_last _ placeholder Hfresh')).
  rewrite <- (Nat.add_0_r (length (chats s))). by rewrite insert_app_r.
Qed.

End Actions.

(** * Scenarios

    Concrete values for what the actions import, and runs of the actions on
    them. *)

Definition sentinel : string := "...".

Definition ids (k : nat) : string := "n" +:+ pretty k.

(** A template compiler: the template [{{ text + }}], whose expression is
    cut short, does not compile; any other template compiles to a function
    that prefixes the text, and throws on the text [boom]. *)
Definition compile (tpl : string) : option (string -> option string) :=
  if decide (tpl = "{{ text + }}") then None
  else Some (fun text => if decide (text = "boom") then None else Some (tpl +:+ text)).

Definition window (messages : list ChatMessage) (cfg : ModelConfig) : list ChatMessage :=
  if enableHistoryCount cfg then drop (length messages - historyCount cfg) messages
  else messages.

Definition marked (text : string) : bool := String.prefix "{" text.

Definition plain : ModelConfig := mkModelConfig "gpt-3.5-turbo" None None false 0.

Definition idle : ChatStore := mkChatStore [] None None plain None [] 0 [] [].

(** [sendMessage text] followed by the continuation that adds the
    placeholder and starts the generation. *)
Definition ask (text : string) (s : ChatStore) : ChatStore * Task :=
  let '(s1, t) := sendMessage ids text s in
  resume sentinel compile window t s1.

(** A message as the list shows it. *)
Definition view (m : ChatMessage) :=
  (id m, role m, content m, parentId m, error m).

(** Two questions in a row, the second while the first reply is still
    streaming. *)
Definition first_run : ChatStore * Task := ask "hi" idle.
Definition second_run : ChatStore * Task := ask "again" (fst first_run).

(** A finished exchange. *)
Definition question : ChatMessage := mkChatMessage "u1" user "hi" None ∅ None.
Definition answer : ChatMessage :=
  mkChatMessage "a1" assistant "hello" (Some "u1") ∅ None.
Definition failed_answer : ChatMessage :=
  mkChatMessage "a1" assistant "hel" (Some "u1") ∅ (Some "network").
Definition exchange : ChatStore :=
  mkChatStore [question; answer] None None plain None [] 0 [] [].
Definition failed_exchange : ChatStore :=
  mkChatStore [question; failed_answer] None None plain None [] 0 [] [].

(** While the first reply streams (it holds [Hel] so far), the user sends
    the text [...]; [sendMessage] has added the user message and waits for
    the id of the next reply. *)
Definition asked_again : ChatStore :=
  let '(s1, t) := ask "hi" idle in
  match t with
  | AwaitSSE run =>
      fst (sendMessage ids sentinel
             (fst (deliver sentinel marked [Frame "Hel"] run s1)))
  | _ => s1
  end.

(** The user sends the text [...] and deletes the reply while it streams. *)
Definition deleted_midway : ChatStore :=
  let '(s1, t) := ask sentinel idle in
  match t with
  | AwaitSSE run =>
      fst (deliver sentinel marked
             [Frame "Hel"; Interleaved (Dispatch (DeleteMessage "n1"))] run s1)
  | _ => s1
  end.

(** A store configured with an input template and a system role. *)
Definition templated : ChatStore :=
  mkChatStore [] None None
    (mkModelConfig "gpt-3.5-turbo" (Some "Q: ") (Some "be brief") false 0)
    None [] 0 [] [].

(** A store whose input template does not compile. *)
Definition mistyped : ChatStore :=
  mkChatStore [] None None
    (mkModelConfig "gpt-3.5-turbo" (Some "{{ text + }}") None false 0)
    None [] 0 [] [].

Definition mixed : list ChatMessage :=
  [mkChatMessage "u1" user "hi" None ∅ None;
   mkChatMessage "a1" assistant "hello" (Some "u1") ∅ None;
   mkChatMessage "u2" user "boom" None ∅ None].

(** ** The spec's scenarios *)

Example hello_scenario :
  let '(s1, t) := ask "hello" idle in
  map view (chats s1) =
    [("n0", user, "hello", None, None);
     ("n1", assistant, sentinel, Some "n0", None)] /\
  chatLoadingId s1 = Some "n1" /\
  exists run, t = AwaitSSE run /\
    let '(s2, run2) := fetchSSE sentinel marked (mkStream [Frame "Hel"; Frame "lo"] None) run s1 in
    sent run2 = ["Hel"; "Hello"] /\
    generateMessage_resume run2 s2 = (toggleChatLoading_off s2, false) /\
    map view (chats s2) =
      [("n0", user, "hello", None, None);
       ("n1", assistant, "Hello", Some "n0", None)].
Proof. vm_compute. repeat split. eexists. repeat split. Qed.

Example failure_scenario :
  let '(s1, t) := ask "hello" idle in
  let final := settle sentinel compile window marked
                 (mkStream [Frame "Hel"] (Some "network")) t s1 in
  map view (chats final) =
    [("n0", user, "hello", None, None);
     ("n1", assistant, "Hel", Some "n0", Some "network")] /\
  chatLoadingId final = None /\ abortController final = None.
Proof. vm_compute. repeat split. Qed.

Example stop_scenario :
  let '(s1, t) := ask "hello" idle in
  let final := settle sentinel compile window marked
                 (mkStream [Interleaved Stop; Frame "Hel"] None) t s1 in
  map view (chats final) =
    [("n0", user, "hello", None, None);
     ("n1", assistant, "", Some "n0", None)] /\
  controllers final = [1].
Proof. vm_compute. repeat split. Qed.

(** A send with an input template that does not compile: the user message
    and the placeholder are added, the session is set, and the generation
    is rejected without a request; nothing clears the session. *)
Example mistyped_template_scenario :
  let '(s1, t) := ask "hello" mistyped in
  t = Rejected /\
  map view (chats s1) =
    [("n0", user, "hello", None, None);
     ("n1", assistant, sentinel, Some "n0", None)] /\
  fetched s1 = [] /\
  chatLoadingId s1 = Some "n1" /\
  abortController s1 = Some 0.
Proof. vm_compute. repeat split. Qed.

(** ** Where the claims as worded fail *)

(** C1 as worded fails: when the second generation starts, the first
    session's controller has received no [abort()] (zero calls, not one),
    its signal is not aborted, and a chunk that then arrives for the first
    session is still written to its message while the second session is the
    active one. *)
Lemma previous_session_not_aborted :
  abortController (fst first_run) = Some 0 /\
  chatLoadingId (fst first_run) = Some "n1" /\
  abortController (fst second_run) = Some 1 /\
  chatLoadingId (fst second_run) = Some "n3" /\
  abort_calls 0 (fst second_run) = 0 /\
  abort_calls 0 (fst second_run) <> 1 /\
  signal_aborted 0 (fst second_run) = false /\
  exists earlier,
    snd first_run = AwaitSSE earlier /\
    run_controller earlier = 0 /\
    map view (chats (fst (onMessageHandle marked "late" earlier (fst second_run)))) =
      [("n0", user, "hi", None, None);
       ("n1", assistant, "late", Some "n0", None);
       ("n2", user, "again", None, None);
       ("n3", assistant, sentinel, Some "n2", None)].
Proof.
  vm_compute. repeat split; try discriminate.
  eexists. repeat split.
Qed.

(** C2 as worded fails: resending the assistant message [a1], whose parent
    [u1] is at position 0, hands over the context [[u1]], parent included,
    not the (empty) list of the messages before the parent. *)
Lemma resend_context_includes_parent :
  findIndex "a1" (chats exchange) = Some (1, answer) /\
  findIndex "u1" (chats exchange) = Some (0, question) /\
  contextMessages (chats exchange) 1 answer = [question] /\
  contextMessages (chats exchange) 1 answer <> take 0 (chats exchange) /\
  snd (resendMessage ids "a1" exchange) = AwaitMessageId [question] "u1" "n0".
Proof. vm_compute. repeat split. discriminate. Qed.

(** C6 as worded fails: the last message's content is the sentinel and a
    session is active, yet [stopGenerateMessage] leaves that content as it
    is: its update goes to the message named by [chatLoadingId], here the
    reply that is streaming, whose text is wiped instead. *)
Lemma stop_keeps_last_content :
  map view (chats asked_again) =
    [("n0", user, "hi", None, None);
     ("n1", assistant, "Hel", Some "n0", None);
     ("n2", user, sentinel, None, None)] /\
  abortController asked_again = Some 0 /\
  chatLoadingId asked_again = Some "n1" /\
  map view (chats (stopGenerateMessage sentinel asked_again)) =
    [("n0", user, "hi", None, None);
     ("n1", assistant, "", Some "n0", None);
     ("n2", user, sentinel, None, None)] /\
  (exists m, last (chats (stopGenerateMessage sentinel asked_again)) = Some m /\
             content m = sentinel /\ content m <> "").
Proof.
  vm_compute. repeat split.
  eexists. split; [reflexivity|]. split; [reflexivity | discriminate].
Qed.

(** C7 as worded fails: [resendMessage] on the errored reply [a1] deletes
    nothing.  It dispatches the new placeholder only, and once the retry has
    streamed its text the regenerated reply stands beside the errored one,
    which still holds its error. *)
Lemma resend_keeps_errored_reply :
  findIndex "a1" (chats failed_exchange) = Some (1, failed_answer) /\
  error failed_answer = Some "network" /\
  let '(s1, t) := resendMessage ids "a1" failed_exchange in
  t = AwaitMessageId [question] "u1" "n0" /\
  chats s1 = chats failed_exchange /\
  dispatched (fst (resume sentinel compile window t s1)) =
    [AddMessage "n0" sentinel (Some "u1") assistant;
     UpdateMessageExtra "n0" "fromModel" "gpt-3.5-turbo"] /\
  map view (chats (fst (resume sentinel compile window t s1))) =
    [("u1", user, "hi", None, None);
     ("a1", assistant, "hel", Some "u1", Some "network");
     ("n0", assistant, sentinel, Some "u1", None)] /\
  map view (chats (settle sentinel compile window marked
                     (mkStream [Frame "hello"] None) t s1)) =
    [("u1", user, "hi", None, None);
     ("a1", assistant, "hel", Some "u1", Some "network");
     ("n0", assistant, "hello", Some "u1", None)].
Proof. vm_compute. repeat split. Qed.

(** The same when the message named by [chatLoadingId] is gone: nothing is
    cleared. *)
Example stop_after_delete :
  map view (chats deleted_midway) = [("n0", user, sentinel, None, None)] /\
  abortController deleted_midway = Some 0 /\
  chatLoadingId deleted_midway = Some "n1" /\
  map view (chats (stopGenerateMessage sentinel deleted_midway)) =
    [("n0", user, sentinel, None, None)] /\
  dispatched (stopGenerateMessage sentinel deleted_midway) =
    dispatched deleted_midway ++ [UpdateMessage (Some "n1") (SetContent "")].
Proof. vm_compute. repeat split. Qed.

(** ** The theorems at work *)

Lemma first_run_consistent : session_consistent (fst first_run).
Proof. vm_compute. split; [lia | by eexists]. Defined.

Lemma generateMessage_supersedes_witness :
  session_consistent (fst first_run) /\
  abortController (fst first_run) = Some 0 /\
  exists s' run,
    generateMessage compile window [question] "a9" (fst first_run) = (s', AwaitSSE run) /\
    run_controller run <> 0 /\
    abortController s' = Some (run_controller run) /\
    chatLoadingId s' = Some "a9" /\
    signal_aborted (run_controller run) s' = false /\
    abort_calls 0 s' = abort_calls 0 (fst first_run) /\
    signal_aborted 0 s' = signal_aborted 0 (fst first_run).
Proof.
  split; [exact first_run_consistent|]. split; [reflexivity|].
  destruct (generateMessage_supersedes compile window [question] "a9" (fst first_run) 0
              first_run_consistent eq_refl)
    as (s' & t & controller & Hgen & Hne & Hctl & Hid & Hlive & Hcalls & Hsig & Hok & _).
  destruct (Hok [question] eq_refl) as (run & -> & <- & _).
  exists s', run. split; [exact Hgen|]. split; [exact Hne|]. split; [exact Hctl|].
  split; [exact Hid|]. split; [exact Hlive|]. split; [exact Hcalls | exact Hsig].
Defined.

Lemma resendMessage_context_witness :
  findIndex "a1" (chats exchange) = Some (1, answer) /\
  (forall userId userIndex parent,
     parentId answer = Some userId ->
     findIndex userId (chats exchange) = Some (userIndex, parent) ->
     contextMessages (chats exchange) 1 answer =
       take userIndex (chats exchange) ++ [parent]) /\
  resendMessage ids "a1" exchange =
    realFetchAIResponse ids (contextMessages (chats exchange) 1 answer) "u1" exchange.
Proof.
  split; [reflexivity|].
  destruct (resendMessage_context ids exchange "a1" 1 answer eq_refl)
    as (_ & Hparent & _ & Hhandover).
  split.
  - apply Hparent. reflexivity.
  - apply (Hhandover question). reflexivity.
Defined.

Lemma no_dispatch_after_abort_witness :
  exists run s1 run1,
    snd first_run = AwaitSSE run /\
    deliver sentinel marked [Frame "Hel"; Interleaved Stop] run (fst first_run)
      = (s1, run1) /\
    signal_aborted (run_controller run) s1 = true /\
    exists s2 run2,
      deliver sentinel marked
        ([Frame "Hel"; Interleaved Stop] ++ [Frame "lo"; Frame "!"]) run (fst first_run)
        = (s2, run2) /\
      sent run2 = sent run1 /\
      s2 = perform_all sentinel (user_actions [Frame "lo"; Frame "!"]) s1 /\
      forall text, fst (onMessageHandle marked text run2 s2) = s2.
Proof.
  eexists _, _, _. split; [reflexivity|]. split; [reflexivity|].
  split; [reflexivity|].
  apply (no_dispatch_after_abort sentinel marked
           [Frame "Hel"; Interleaved Stop] [Frame "lo"; Frame "!"]);
    reflexivity.
Defined.

Lemma stream_failure_recorded_witness :
  findIndex "n1" (chats (fst first_run)) =
    Some (1, mkChatMessage "n1" assistant sentinel (Some "n0")
               {["fromModel" := "gpt-3.5-turbo"]} None) /\
  exists s1 run m',
    generateMessage compile window [question] "n1" (fst first_run) = (s1, AwaitSSE run) /\
    let final := fst (consume sentinel marked
                        (mkStream (map Frame ["Hel"]) (Some "network")) run s1) in
    chats final = <[1 := m']> (chats (fst first_run)) /\
    error m' = Some "network" /\
    content m' = "Hel" /\
    abortController final = None /\
    chatLoadingId final = None.
Proof.
  split; [reflexivity|].
  destruct (stream_failure_recorded sentinel compile window marked
              [question] "n1" ["Hel"] "network" (fst first_run) 1 _ eq_refl)
    as [Hok _].
  destruct (Hok [question] eq_refl)
    as (s1 & run & m' & Hgen & Hchats & _ & Herror & Hcontent & _ & Hctl & Hid).
  exists s1, run, m'. split; [exact Hgen|]. simpl.
  split; [exact Hchats|]. split; [exact Herror|]. split; [exact Hcontent|].
  split; [exact Hctl | exact Hid].
Defined.

Lemma stopGenerateMessage_spec_witness :
  session_consistent (fst first_run) /\
  (exists before lastChat,
     chats (fst first_run) = before ++ [lastChat] /\
     content lastChat = sentinel /\
     chatLoadingId (fst first_run) = Some (id lastChat) /\
     findIndex (id lastChat) before = None /\
     dispatched (stopGenerateMessage sentinel (fst first_run)) =
       dispatched (fst first_run) ++ [UpdateMessage (Some (id lastChat)) (SetContent "")] /\
     chats (stopGenerateMessage sentinel (fst first_run)) =
       before ++ [apply_update (SetContent "") lastChat]) /\
  (abortController (fst first_run) = Some 0 /\
   abort_calls 0 (stopGenerateMessage sentinel (fst first_run)) =
     S (abort_calls 0 (fst first_run)) /\
   chatLoadingId (stopGenerateMessage sentinel (fst first_run)) = None) /\
  (session_consistent exchange /\ abortController exchange = None /\
   chats (stopGenerateMessage sentinel exchange) = chats exchange).
Proof.
  destruct (stopGenerateMessage_spec sentinel (fst first_run) first_run_consistent)
    as (Hclear & Hactive & _).
  assert (session_consistent exchange) as Hidle_ok by reflexivity.
  destruct (stopGenerateMessage_spec sentinel exchange Hidle_ok) as (_ & _ & Hidle).
  split_and!.
  - exact first_run_consistent.
  - eexists [_], _. split; [reflexivity|]. split; [reflexivity|].
    split; [reflexivity|]. split; [reflexivity|].
    apply Hclear; reflexivity.
  - reflexivity.
  - apply (Hactive 0); reflexivity.
  - apply (Hactive 0); reflexivity.
  - exact Hidle_ok.
  - reflexivity.
  - apply Hidle; reflexivity.
Defined.

Lemma regenerate_deletes_errored_witness :
  NoDup (map id (chats failed_exchange)) /\
  exists s',
    onActionsClick ids regenerate "a1" (Some "network") failed_exchange =
      (s', AwaitMessageId [question] "u1" "n0") /\
    chats s' = filter (fun m => id m <> "a1") (chats failed_exchange) /\
    dispatched s' = dispatched failed_exchange ++ [DeleteMessage "a1"] /\
    map id (chats (fst (resume sentinel compile window
                          (AwaitMessageId [question] "u1" "n0") s'))) =
      ["u1"; "n0"].
Proof.
  assert (NoDup (map id (chats failed_exchange))) as Hnodup.
  { simpl. apply NoDup_cons. split; [|apply NoDup_singleton].
    intros Hin. apply list_elem_of_singleton in Hin. discriminate. }
  split; [exact Hnodup|].
  destruct (regenerate_deletes_errored sentinel ids compile window
              "a1" (Some "network") failed_exchange Hnodup)
    as (s' & Hclick & [Hchats Hlog] & _ & _ & Hretry).
  destruct (Hretry 1 failed_answer question eq_refl eq_refl)
    as (Hstart & _ & Hids & _).
  exists s'. split; [exact Hclick|]. split; [exact Hchats|]. split; [exact Hlog|].
  cbv zeta in Hids. change (map id (chats (fst (resume sentinel compile window
      (AwaitMessageId [question] "u1" "n0") s'))) = map id (chats s') ++ ["n0"]) in Hids.
  rewrite Hids, Hchats. reflexivity.
Defined.

Lemma sendMessage_spec_witness :
  sendMessage ids "" idle = (idle, Settled) /\
  "hello" <> "" /\ chats idle = [] /\
  exists s1 messages userId mid s2 run u a,
    sendMessage ids "hello" idle = (s1, AwaitMessageId messages userId mid) /\
    userId = "n0" /\
    resume sentinel compile window (AwaitMessageId messages userId mid) s1
      = (s2, AwaitSSE run) /\
    chats s2 = [u; a] /\
    (id u = userId /\ role u = user /\ content u = "hello" /\ parentId u = None) /\
    (id a = mid /\ role a = assistant /\ content a = sentinel /\
     parentId a = Some userId) /\
    chatLoadingId s2 = Some mid /\
    assistantId run = mid /\
    abortController s2 = Some (run_controller run).
Proof.
  destruct (sendMessage_spec sentinel ids compile window "hello" idle)
    as [Hempty Hsend].
  split; [exact Hempty|]. split; [discriminate|]. split; [reflexivity|].
  destruct Hsend
    as (s1 & messages & userId & mid & s2 & t & controller & u & a &
        Hs & Hu & Hr & Hc & Hfu & Hfa & Hl & Hctl & Hok & _);
    [discriminate | reflexivity |].
  assert (messages = [mkChatMessage "n0" user "hello" None ∅ None]) as Hm.
  { vm_compute in Hs. by injection Hs. }
  destruct (Hok messages) as (run & Ht & Hid & Hrun & _); [by rewrite Hm|].
  exists s1, messages, userId, mid, s2, run, u, a.
  split; [exact Hs|]. split; [exact Hu|]. split; [by rewrite Hr, Ht|].
  split; [exact Hc|]. split; [exact Hfu|]. split; [exact Hfa|].
  split; [exact Hl|]. split; [exact Hid | by rewrite Hrun].
Defined.

Example compiled_template_scenario :
  exists compiled,
    compilerMessages compile "Q: " (window mixed (config templated)) = Some compiled /\
    map view compiled =
      [("u1", user, "Q: hi", None, None);
       ("a1", assistant, "hello", Some "u1", None);
       ("u2", user, "boom", None, None)] /\
    exists s1 run,
      generateMessage compile window mixed "a2" templated = (s1, AwaitSSE run) /\
      postMessages run = systemMessage "be brief" :: compiled.
Proof.
  destruct (compiled_template_user_only compile window mixed "a2" templated "Q: " _
              eq_refl eq_refl)
    as (compiled & Hcompiled & _ & _ & _ & _ & s1 & run & Hgen & Hposted & _).
  exists compiled. split; [exact Hcompiled|].
  split; [vm_compute in Hcompiled; by injection Hcompiled as <-|].
  exists s1, run. split; [exact Hgen | exact Hposted].
Qed.

Lemma uncompiled_template_rejects_witness :
  "hello" <> "" /\
  truthy (inputTemplate (config mistyped)) = Some "{{ text + }}" /\
  compile "{{ text + }}" = None /\
  exists s1 messages userId mid s2,
    sendMessage ids "hello" mistyped = (s1, AwaitMessageId messages userId mid) /\
    resume sentinel compile window (AwaitMessageId messages userId mid) s1
      = (s2, Rejected) /\
    preprocess compile window (config mistyped) messages = None /\
    fetched s2 = fetched mistyped /\
    chatLoadingId s2 = Some mid /\
    abortController s2 = Some (length (controllers mistyped)) /\
    forall stream,
      settle sentinel compile window marked stream
        (AwaitMessageId messages userId mid) s1 = s2.
Proof.
  split; [discriminate|]. split; [reflexivity|]. split; [reflexivity|].
  apply (uncompiled_template_rejects sentinel ids compile window marked
           "hello" mistyped "{{ text + }}"); [discriminate | reflexivity | reflexivity].
Defined.

Lemma sendMessage_ids_witness :
  "hello" <> "" /\
  exists s1,
    sendMessage ids "hello"
      (mkChatStore [] None None plain (Some (fun _ parent => "reply-to-" +:+ parent))
         [] 0 [] [])
      = (s1, AwaitMessageId [mkChatMessage "n0" user "hello" None ∅ None]
               "n0" "reply-to-n0") /\
    dispatched s1 = [AddMessage "n0" "hello" None user] /\
    dispatched (fst (resume sentinel compile window
                       (AwaitMessageId [mkChatMessage "n0" user "hello" None ∅ None]
                          "n0" "reply-to-n0") s1)) =
      dispatched s1 ++ [AddMessage "reply-to-n0" sentinel (Some "n0") assistant;
                        UpdateMessageExtra "reply-to-n0" "fromModel" "gpt-3.5-turbo"].
Proof.
  split; [discriminate|].
  apply (sendMessage_ids sentinel ids compile window "hello"
           (mkChatStore [] None None plain (Some (fun _ parent => "reply-to-" +:+ parent))
              [] 0 [] [])).
  discriminate.
Defined.


(** ** The further properties at work *)

(** The first reply after its first frame, with the run that streams it. *)
Definition streaming : ChatStore * GenRun :=
  match snd first_run with
  | AwaitSSE run => deliver sentinel marked [Frame "Hel"] run (fst first_run)
  | _ => (fst first_run, mkGenRun "" 0 "" false [] [])
  end.

Lemma resendMessage_idle_iff_witness :
  findIndex "nobody" (chats exchange) = None /\
  snd (resendMessage ids "nobody" exchange) = Settled /\
  fst (resendMessage ids "nobody" exchange) = exchange.
Proof.
  split; [reflexivity|].
  destruct (resendMessage_idle_iff ids "nobody" exchange) as (Hiff & Hsame & _).
  assert (snd (resendMessage ids "nobody" exchange) = Settled) as Hidle.
  { apply Hiff. exact I. }
  split; [exact Hidle | exact (Hsame Hidle)].
Defined.

Lemma resendMessage_user_target_witness :
  findIndex "u1" (chats exchange) = Some (0, question) /\
  role question = user /\
  resendMessage ids "u1" exchange =
    realFetchAIResponse ids (take 0 (chats exchange) ++ [question]) "u1" exchange.
Proof.
  split; [reflexivity|]. split; [reflexivity|].
  apply (resendMessage_user_target ids "u1" exchange 0 question); reflexivity.
Defined.

Lemma resendMessage_assistant_target_witness :
  findIndex "a1" (chats exchange) = Some (1, answer) /\
  parentId answer = Some "u1" /\
  findIndex "u1" (chats exchange) = Some (0, question) /\
  resendMessage ids "a1" exchange =
    realFetchAIResponse ids (take 0 (chats exchange) ++ [question]) "u1" exchange /\
  findIndex "a1" (take 0 (chats exchange) ++ [question]) = None.
Proof.
  split; [reflexivity|]. split; [reflexivity|]. split; [reflexivity|].
  destruct (resendMessage_assistant_target ids "a1" exchange 1 answer "u1" 0 question)
    as [Hstart Hfresh]; try reflexivity.
  split; [exact Hstart | apply Hfresh; lia].
Defined.

Lemma idle_consistent : session_consistent idle.
Proof. reflexivity. Defined.

Lemma idle_aborts_sound : aborts_sound idle.
Proof.
  split; [intros h n Hn | intros h Hh]; discriminate.
Defined.

(** A question, its reply stopped after one frame, seen as a sequence of
    primitive steps. *)
Lemma stopped_run_reaches :
  rtc (transition sentinel ids compile window) idle
    (settle sentinel compile window marked
       (mkStream [Frame "Hel"; Interleaved Stop; Frame "lo"] None)
       (snd (sendMessage ids "hi" idle)) (fst (sendMessage ids "hi" idle))).
Proof.
  etrans; [apply sendMessage_reaches | apply settle_reaches].
Defined.

Lemma session_fields_invariant_witness :
  session_consistent idle /\
  session_consistent
    (settle sentinel compile window marked
       (mkStream [Frame "Hel"; Interleaved Stop; Frame "lo"] None)
       (snd (sendMessage ids "hi" idle)) (fst (sendMessage ids "hi" idle))).
Proof.
  split; [exact idle_consistent|].
  exact (session_fields_invariant sentinel ids compile window _ _
           idle_consistent stopped_run_reaches).
Defined.

Lemma abort_at_most_once_witness :
  aborts_sound idle /\
  aborts_sound
    (settle sentinel compile window marked
       (mkStream [Frame "Hel"; Interleaved Stop; Frame "lo"] None)
       (snd (sendMessage ids "hi" idle)) (fst (sendMessage ids "hi" idle))).
Proof.
  split; [exact idle_aborts_sound|].
  exact (abort_at_most_once sentinel ids compile window _ _
           idle_aborts_sound stopped_run_reaches).
Defined.

Lemma streaming_consistent : session_consistent (fst streaming).
Proof. vm_compute. split; [lia | by eexists]. Defined.

Lemma stop_keeps_partial_content_witness :
  session_consistent (fst streaming) /\
  abortController (fst streaming) = Some (run_controller (snd streaming)) /\
  (forall lastChat, last (chats (fst streaming)) = Some lastChat ->
                    content lastChat <> sentinel) /\
  let final := consume sentinel marked
                 (mkStream (Interleaved Stop :: map Frame ["lo"; "!"]) None)
                 (snd streaming) (fst streaming) in
  chats (fst final) = chats (fst streaming) /\
  snd final = false /\
  abortController (fst final) = None.
Proof.
  assert (forall lastChat, last (chats (fst streaming)) = Some lastChat ->
                           content lastChat <> sentinel) as Hlast.
  { intros lastChat Hl. vm_compute in Hl. injection Hl as <-. discriminate. }
  split; [exact streaming_consistent|]. split; [reflexivity|]. split; [exact Hlast|].
  destruct (stop_keeps_partial_content sentinel marked ["lo"; "!"] None
              (snd streaming) (fst streaming) streaming_consistent eq_refl Hlast)
    as (_ & Hchats & Hflag & _ & Hctl & _).
  split; [exact (Hchats eq_refl)|]. split; [exact Hflag | exact Hctl].
Defined.

Lemma stopGenerateMessage_idempotent_witness :
  session_consistent (fst streaming) /\
  chats (stopGenerateMessage sentinel (stopGenerateMessage sentinel (fst streaming))) =
    chats (stopGenerateMessage sentinel (fst streaming)) /\
  controllers (stopGenerateMessage sentinel (stopGenerateMessage sentinel (fst streaming))) =
    controllers (stopGenerateMessage sentinel (fst streaming)).
Proof.
  split; [exact streaming_consistent|].
  destruct (stopGenerateMessage_idempotent sentinel (fst streaming) streaming_consistent)
    as (Hchats & Hheap & _).
  split; [exact Hchats | exact Hheap].
Defined.

Lemma streaming_ids_unique : NoDup (map id (chats (fst streaming))).
Proof.
  change (NoDup ["n0"; "n1"]).
  apply NoDup_cons. split; [|apply NoDup_singleton].
  intros Hin. apply list_elem_of_singleton in Hin. discriminate.
Defined.

Lemma deleted_reply_stays_deleted_witness :
  NoDup (map id (chats (fst streaming))) /\
  assistantId (snd streaming) = "n1" /\
  let deleted := deleteMessage "n1" (fst streaming) in
  let after := fst (fetchSSE sentinel marked
                      (mkStream (map Frame ["lo"]) (Some "network"))
                      (snd streaming) deleted) in
  map view (chats after) = [("n0", user, "hi", None, None)] /\
  chatLoadingId after = Some "n1".
Proof.
  split; [exact streaming_ids_unique|]. split; [reflexivity|].
  destruct (deleted_reply_stays_deleted sentinel marked ["lo"] (Some "network")
              (snd streaming) (fst streaming) streaming_ids_unique)
    as (Hdeleted & Hafter & _ & _ & Hid).
  split.
  - cbv zeta. change (assistantId (snd streaming)) with "n1" in Hafter.
    rewrite Hafter. reflexivity.
  - exact Hid.
Defined.

Lemma edit_overwritten_by_next_frame_witness :
  signal_aborted (run_controller (snd streaming)) (fst streaming) = false /\
  (exists m, findIndex (assistantId (snd streaming)) (chats (fst streaming)) = Some (1, m)) /\
  exists m',
    chats (fst (onMessageHandle marked "lo" (snd streaming)
                  (onMessageChange "n1" "my own words" (fst streaming)))) !! 1
      = Some m' /\
    content m' = "Hello".
Proof.
  split; [reflexivity|]. split; [eexists; reflexivity|].
  destruct (edit_overwritten_by_next_frame marked "lo" "my own words"
              (snd streaming) (fst streaming) 1 _ eq_refl eq_refl)
    as (m_edited & m' & _ & _ & Hk & Hcontent & _).
  exists m'. split; [exact Hk | exact Hcontent].
Defined.

Lemma sendMessage_context_witness :
  "hello" <> "" /\
  exists s1 t s2 run call,
    sendMessage ids "hello" exchange = (s1, t) /\
    resume sentinel compile window t s1 = (s2, AwaitSSE run) /\
    fetched s2 = [call] /\
    map view (fetch_messages call) =
      [("u1", user, "hi", None, None);
       ("a1", assistant, "hello", Some "u1", None);
       ("n0", user, "hello", None, None)] /\
    length (chats s2) = 4.
Proof.
  split; [discriminate|].
  destruct (sendMessage_context sentinel ids compile window "hello" exchange)
    as (s1 & t & s2 & t2 & Hsend & _ & Hresume & Hlen & Hok & _);
    [discriminate|].
  destruct (Hok _ eq_refl) as (run & call & -> & _ & Hfetched & Hcall & _).
  exists s1, t, s2, run, call.
  split; [exact Hsend|]. split; [exact Hresume|]. split; [exact Hfetched|].
  split; [by rewrite Hcall | exact Hlen].
Defined.

(** Preprocessing with a template that does not compile, and with one that
    does. *)
Lemma preprocess_shape_witness :
  preprocess compile window (config mistyped) [question] = None /\
  exists body,
    preprocess compile window (config templated) mixed =
      Some (systemMessage "be brief" :: body) /\
    Forall2 same_but_user_content (window mixed (config templated)) body.
Proof.
  destruct (preprocess_shape compile window (config mistyped) [question]) as [Hnone _].
  split; [apply Hnone; exists "{{ text + }}"; by split|].
  destruct (preprocess_shape compile window (config templated) mixed) as [_ Hsome].
  destruct (Hsome _ eq_refl) as (body & Hposted & Hshape & _).
  exists body. split; [|exact Hshape].
  injection Hposted as <-. reflexivity.
Defined.

Lemma stop_cancels_latest_request_witness :
  exists s1 run call,
    generateMessage compile window [question] "n1" (fst first_run) = (s1, AwaitSSE run) /\
    last (fetched s1) = Some call /\
    fetch_signal call = run_controller run /\
    signal_aborted (fetch_signal call) (stopGenerateMessage sentinel s1) = true.
Proof.
  destruct (stop_cancels_latest_request sentinel compile window
              [question] "n1" (fst first_run)) as [Hok _].
  destruct (Hok [question] eq_refl)
    as (s1 & run & call & Hgen & Hlast & Hsignal & _ & _ & Hfired & _).
  by exists s1, run, call.
Defined.

Lemma one_dispatch_per_frame_witness :
  exists s1 run,
    generateMessage compile window [question] "n1" (fst first_run) = (s1, AwaitSSE run) /\
    sent (snd (deliver sentinel marked (map Frame ["Hel"; "lo"]) run s1)) !! 1
      = Some "Hello".
Proof.
  destruct (one_dispatch_per_frame sentinel compile window marked
              [question] "n1" ["Hel"; "lo"] (fst first_run)) as [Hok _].
  destruct (Hok [question] eq_refl) as (s1 & run & Hgen & _ & _ & Hvalues).
  exists s1, run. split; [exact Hgen|]. apply (Hvalues 1). simpl. lia.
Defined.

Lemma isFunctionCall_sticky_witness :
  exists s1 run,
    generateMessage compile window [question] "n1" (fst first_run) = (s1, AwaitSSE run) /\
    snd (consume sentinel marked (mkStream (map Frame ["{"; "}"]) None) run s1) = true.
Proof.
  destruct (isFunctionCall_sticky sentinel compile window marked
              [question] "n1" ["{"; "}"] None (fst first_run)) as [Hok _].
  destruct (Hok [question] eq_refl) as (s1 & run & Hgen & Hflag).
  exists s1, run. split; [exact Hgen|]. apply Hflag.
  exists 0. split; [simpl; lia | reflexivity].
Defined.

Lemma ids_injective : Inj (=) (=) ids.
Proof.
  intros j k Heq. unfold ids in Heq.
  apply (inj (String.append "n")) in Heq. by apply (inj pretty) in Heq.
Defined.

Lemma idle_ids_drawn : ids_drawn ids idle.
Proof.
  split; [apply NoDup_nil_2 | intros i Hi; by apply elem_of_nil in Hi].
Defined.

Lemma ids_stay_unique_witness :
  Inj (=) (=) ids /\ genMessageId idle = None /\ ids_drawn ids idle /\
  ids_drawn ids
    (fst (resume sentinel compile window
            (snd (sendMessage ids "hi" idle)) (fst (sendMessage ids "hi" idle)))).
Proof.
  split; [exact ids_injective|]. split; [reflexivity|]. split; [exact idle_ids_drawn|].
  destruct (ids_stay_unique sentinel ids compile window idle
              ids_injective eq_refl idle_ids_drawn) as [Hsend _].
  exact (Hsend "hi").
Defined.

Lemma stream_success_recorded_witness :
  (exists m, findIndex "n1" (chats (fst first_run)) = Some (1, m)) /\
  exists s1 run m',
    generateMessage compile window [question] "n1" (fst first_run) = (s1, AwaitSSE run) /\
    let final := fst (consume sentinel marked
                        (mkStream (map Frame ["Hel"; "lo"]) None) run s1) in
    chats final = <[1 := m']> (chats (fst first_run)) /\
    content m' = "Hello" /\
    error m' = None /\
    chatLoadingId final = None.
Proof.
  split; [eexists; reflexivity|].
  destruct (stream_success_recorded sentinel compile window marked
              [question] "n1" ["Hel"; "lo"] (fst first_run) 1 _ eq_refl)
    as [Hok _].
  destruct (Hok [question] eq_refl)
    as (s1 & run & m' & Hgen & Hchats & Hcontent & (_ & _ & _ & _ & Herror) & _ & Hid).
  exists s1, run, m'. split; [exact Hgen|]. cbv zeta.
  split; [exact Hchats|]. split; [exact Hcontent|]. split; [exact Herror | exact Hid].
Defined.

Lemma placeholder_records_model_witness :
  findIndex "n9" (chats exchange) = None /\
  chats (fst (realFetchAIResponse_resume sentinel compile window
                [question] "u1" "n9" exchange)) =
    [question; answer;
     mkChatMessage "n9" assistant sentinel (Some "u1")
       {["fromModel" := "gpt-3.5-turbo"]} None].
Proof.
  split; [reflexivity|].
  apply (placeholder_records_model sentinel compile window [question] "u1" "n9" exchange).
  reflexivity.
Defined.
